(** * Gesture pipeline and draw session of the tarot engine

    A shallow embedding of the gesture classifier, the gesture stabilizer,
    the interaction state machine and the safety placement resolver of
    [GameEngine], together with the card table [TAROT_DECK].

    Numbers that the engine computes with as IEEE doubles (landmark
    coordinates, distances, the resolver's line search) are binary64
    [float]s; [Date.now()] readings are integers in [Z]; counters are [nat]. *)

From Stdlib Require Import String Floats List ZArith Lia Bool Arith PeanoNat Permutation Sorted.
Import ListNotations.

Set Warnings "-inexact-float".
Set Implicit Arguments.

(** ** The enumerations of the engine *)

Inductive GameState : Type :=
  | IDLE | READY | GRABBING | PREVIEW | CONFIRMED | DISINTEGRATING.

Inductive InputMode : Type := HANDS | MOUSE.

Inductive Gesture : Type := NONE | OPEN | PINCH | FIST | POINT.

Definition GameState_eqb (a b : GameState) : bool :=
  match a, b with
  | IDLE, IDLE | READY, READY | GRABBING, GRABBING
  | PREVIEW, PREVIEW | CONFIRMED, CONFIRMED
  | DISINTEGRATING, DISINTEGRATING => true
  | _, _ => false
  end.

Definition InputMode_eqb (a b : InputMode) : bool :=
  match a, b with
  | HANDS, HANDS | MOUSE, MOUSE => true
  | _, _ => false
  end.

Definition Gesture_eqb (a b : Gesture) : bool :=
  match a, b with
  | NONE, NONE | OPEN, OPEN | PINCH, PINCH | FIST, FIST | POINT, POINT => true
  | _, _ => false
  end.


(** ** Cards and the card table

    A card keeps its numeric identity and its two names; the meaning texts
    and the artwork references of [TarotCardData] play no part in the
    session logic and are left out. *)

Record TarotCardData : Type := mkCard {
  id : nat;
  name_zh : string;
  name_en : string
}.

Module History.

Record CardHistory : Type := mkHistory {
  name : string;
  isReversed : bool;
  timestamp : Z;
  cardData : TarotCardData
}.

End History.

Definition TAROT_DECK : list TarotCardData :=
  [
    mkCard 0 "愚者" "The Fool";
    mkCard 1 "魔术师" "The Magician";
    mkCard 2 "女祭司" "The High Priestess";
    mkCard 3 "皇后" "The Empress";
    mkCard 4 "皇帝" "The Emperor";
    mkCard 5 "教皇" "The Hierophant";
    mkCard 6 "恋人" "The Lovers";
    mkCard 7 "战车" "The Chariot";
    mkCard 8 "力量" "Strength";
    mkCard 9 "隐士" "The Hermit";
    mkCard 10 "命运之轮" "Wheel of Fortune";
    mkCard 11 "正义" "Justice";
    mkCard 12 "悬吊者" "The Hanged Man";
    mkCard 13 "死神" "Death";
    mkCard 14 "节制" "Temperance";
    mkCard 15 "恶魔" "The Devil";
    mkCard 16 "塔" "The Tower";
    mkCard 17 "星星" "The Star";
    mkCard 18 "月亮" "The Moon";
    mkCard 19 "太阳" "The Sun";
    mkCard 20 "审判" "Judgement";
    mkCard 21 "世界" "The World";
    mkCard 22 "权杖一" "Ace of Wands";
    mkCard 23 "权杖二" "Two of Wands";
    mkCard 35 "权杖侍从" "Page of Wands";
    mkCard 36 "圣杯一" "Ace of Cups";
    mkCard 49 "圣杯侍从" "Page of Cups";
    mkCard 50 "宝剑一" "Ace of Swords";
    mkCard 63 "宝剑侍从" "Page of Swords";
    mkCard 64 "钱币一" "Ace of Pentacles";
    mkCard 77 "钱币侍从" "Page of Pentacles"
  ]%string.

Definition PINCH_THRESHOLD : float := 0.22%float.

(** Sequencing of steps that may fail: a [None] stands for the [TypeError]
    the engine raises when it reads a property of [undefined]. *)
Definition bindOpt {A B : Type} (o : option A) (k : A -> option B) : option B :=
  match o with
  | Some a => k a
  | None => None
  end.

Notation "x <-? e ;; k" := (bindOpt e (fun x => k))
  (at level 61, e at next level, right associativity).

(** ** Gesture classifier *)

Module Classifier.

Local Open Scope float_scope.

(** One tracked point of the hand, in normalized coordinates. *)
Record Landmark : Type := mkLandmark { x : float; y : float; z : float }.

(** [Math.hypot] is the platform's function.  This is the algorithm of V8
    ([MathHypot] in [builtins/math.tq]): one pass takes the absolute values
    and their greatest, [max]; infinity wins over NaN; then the values are
    divided by [max] and their squares added by Kahan summation, and the
    root of the sum is scaled back.  No square can overflow, and the
    result differs from [sqrt (a * a + b * b)] in the last place on some
    arguments. *)
Definition kahanStep (max : float) (acc : float * float) (absValue : float)
    : float * float :=
  let (sum, compensation) := acc in
  let n := absValue / max in
  let summand := n * n - compensation in
  let preliminary := sum + summand in
  (preliminary, (preliminary - sum) - summand).

Definition hypotOf (values : list float) : float :=
  let oneArgIsNaN := existsb is_nan values in
  let absValues :=
    map (fun value => if is_nan value then 0 else abs value) values in
  let max :=
    fold_left (fun max absValue => if max <? absValue then absValue else max)
      absValues 0 in
  if max =? infinity then infinity
  else if oneArgIsNaN then nan
  else if max =? 0 then 0
  else PrimFloat.sqrt (fst (fold_left (kahanStep max) absValues (0, 0))) * max.

(** [Math.hypot(a, b)]. *)
Definition hypot (a b : float) : float := hypotOf [a; b].

Definition getDist (p1 p2 : Landmark) : float :=
  hypot (x p1 - x p2) (y p1 - y p2).

Definition b2n (b : bool) : nat := if b then 1%nat else 0%nat.

(** [Array.prototype.filter] with a callback that may raise. *)
Fixpoint filterOpt {A : Type} (f : A -> option bool) (l : list A) : option (list A) :=
  match l with
  | [] => Some []
  | a :: rest =>
      keep <-? f a ;;
      kept <-? filterOpt f rest ;;
      Some (if keep then a :: kept else kept)
  end.

Definition detectGestureRaw (landmarks : list Landmark) : option Gesture :=
  let wrist := nth_error landmarks 0 in
  let thumbTip := nth_error landmarks 4 in
  let indexTip := nth_error landmarks 8 in
  let getDistWrist (p1 : option Landmark) : option float :=
    p <-? p1 ;; w <-? wrist ;; Some (getDist p w) in
  let isFingerFolded (tip mcp : nat) : option bool :=
    dt <-? getDistWrist (nth_error landmarks tip) ;;
    dm <-? getDistWrist (nth_error landmarks mcp) ;;
    Some (dt <? dm) in
  middleFolded <-? isFingerFolded 12%nat 9%nat ;;
  ringFolded <-? isFingerFolded 16%nat 13%nat ;;
  pinkyFolded <-? isFingerFolded 20%nat 17%nat ;;
  indexFolded <-? isFingerFolded 8%nat 5%nat ;;
  if indexFolded
     && (2 <=? b2n middleFolded + b2n ringFolded + b2n pinkyFolded)%nat
  then Some FIST
  else
    distPinch <-? (p1 <-? thumbTip ;; p2 <-? indexTip ;; Some (getDist p1 p2)) ;;
    if (distPinch <? PINCH_THRESHOLD) && negb indexFolded
    then Some PINCH
    else
      extended <-? filterOpt (fun tipIdx : nat =>
                     let pipIdx := (tipIdx - 2)%nat in
                     dt <-? getDistWrist (nth_error landmarks tipIdx) ;;
                     dp <-? getDistWrist (nth_error landmarks pipIdx) ;;
                     Some (dp * 1.05 <? dt))
                   [8; 12; 16; 20]%nat ;;
      let extendedFingers := length extended in
      if (3 <=? extendedFingers)%nat then Some OPEN else Some NONE.

(** *** The rules in the words of the design: fingers by name *)

Inductive Finger : Type := Index | Middle | Ring | Pinky.

(** The hand model of the vision pipeline: per finger the base knuckle,
    the second joint and the tip; the wrist is point 0, the thumb tip
    point 4. *)
Definition baseKnuckle (f : Finger) : nat :=
  match f with Index => 5 | Middle => 9 | Ring => 13 | Pinky => 17 end.

Definition secondJoint (f : Finger) : nat :=
  match f with Index => 6 | Middle => 10 | Ring => 14 | Pinky => 18 end.

Definition fingerTip (f : Finger) : nat :=
  match f with Index => 8 | Middle => 12 | Ring => 16 | Pinky => 20 end.

Definition origin : Landmark := mkLandmark 0 0 0.

Definition point (frame : list Landmark) (i : nat) : Landmark := nth i frame origin.

(** The planar distance of the design: the distance of two points in the
    image plane, depth left out. *)
Definition planarDistance (a b : Landmark) : float :=
  hypot (x a - x b) (y a - y b).

Definition wristDistance (frame : list Landmark) (i : nat) : float :=
  planarDistance (point frame i) (point frame 0).

(** The tip is closer to the wrist than the base knuckle is. *)
Definition Folded (frame : list Landmark) (f : Finger) : Prop :=
  (wristDistance frame (fingerTip f) <? wristDistance frame (baseKnuckle f)) = true.

(** The tip is farther from the wrist than the second joint by at least
    the margin of 5 percent. *)
Definition Extended (frame : list Landmark) (f : Finger) : Prop :=
  (wristDistance frame (secondJoint f) * 1.05 <=? wristDistance frame (fingerTip f)) = true.

(** The same by more than the margin. *)
Definition StrictlyExtended (frame : list Landmark) (f : Finger) : Prop :=
  (wristDistance frame (secondJoint f) * 1.05 <? wristDistance frame (fingerTip f)) = true.

Definition FistRule (frame : list Landmark) : Prop :=
  Folded frame Index /\
  exists a b : Finger,
    a <> b /\ a <> Index /\ b <> Index /\ Folded frame a /\ Folded frame b.

Definition PinchRule (frame : list Landmark) : Prop :=
  (planarDistance (point frame 4) (point frame 8) <? 0.22) = true
  /\ ~ Folded frame Index.

(** At least three of the four fingers: all but at most one. *)
Definition OpenRule (frame : list Landmark) : Prop :=
  exists spare : Finger, forall f : Finger, f <> spare -> Extended frame f.

Definition StrictOpenRule (frame : list Landmark) : Prop :=
  exists spare : Finger, forall f : Finger, f <> spare -> StrictlyExtended frame f.

End Classifier.

(** ** Gesture stabilizer: the rolling buffer and the majority vote *)

Module Stabilizer.

Definition BUFFER_SIZE : nat := 4.
Definition PINCH_REQUIRED_HOLD : Z := 80.
Definition FIST_REQUIRED_HOLD : Z := 40.

(** [gestureBuffer.push(raw)], then [shift()] when the length exceeds
    [BUFFER_SIZE]. *)
Definition pushGesture (buffer : list Gesture) (raw : Gesture) : list Gesture :=
  let pushed := buffer ++ [raw] in
  if BUFFER_SIZE <? length pushed then tl pushed else pushed.

(** The [counts] object: its keys are gesture names, which an object
    enumerates in the order of their insertion, so it is an association
    list in insertion order. *)
Definition Counts : Type := list (Gesture * nat).

(** [counts[k]], with 0 where the key is absent ([undefined || 0]). *)
Fixpoint countOf (counts : Counts) (k : Gesture) : nat :=
  match counts with
  | [] => 0
  | (k', n) :: rest => if Gesture_eqb k' k then n else countOf rest k
  end.

(** [acc[curr] = (acc[curr] || 0) + 1]. *)
Fixpoint increment (acc : Counts) (curr : Gesture) : Counts :=
  match acc with
  | [] => [(curr, 1)]
  | (k, n) :: rest =>
      if Gesture_eqb k curr then (k, S n) :: rest else (k, n) :: increment rest curr
  end.

Definition countGestures (buffer : list Gesture) : Counts :=
  fold_left increment buffer [].

Definition keys (counts : Counts) : list Gesture := map fst counts.

(** [Object.keys(counts).reduce((a, b) => counts[a] > counts[b] ? a : b)]:
    without an initial value the first key seeds the accumulator, and an
    empty key list raises a [TypeError] ([None]). *)
Definition getStableGesture (buffer : list Gesture) : option Gesture :=
  let counts := countGestures buffer in
  match keys counts with
  | [] => None
  | k :: ks =>
      Some (fold_left
              (fun a b => if countOf counts b <? countOf counts a then a else b)
              ks k)
  end.

(** The time from which a hold is counted: the timer, which an update
    carrying the gesture starts at [now] when it stands at 0. *)
Definition holdStart (startTime now : Z) : Z :=
  if (startTime =? 0)%Z then now else startTime.

(** The effective gesture of an update carrying [incoming], held for [held]
    out of the [required] milliseconds: while the hold has not elapsed, the
    previous current gesture if it matches the incoming one, else NONE. *)
Definition effectiveGesture (current incoming : Gesture) (required held : Z) : Gesture :=
  if (held <? required)%Z
  then (if Gesture_eqb current incoming then current else NONE)
  else incoming.

(** The labels of a buffer in the order of their first occurrence. *)
Fixpoint firstOccurrences (seen : list Gesture) (buffer : list Gesture) : list Gesture :=
  match buffer with
  | [] => []
  | g :: rest =>
      if existsb (Gesture_eqb g) seen
      then firstOccurrences seen rest
      else g :: firstOccurrences (seen ++ [g]) rest
  end.

End Stabilizer.

(** ** Safety placement resolver *)

Module Resolver.

Local Open Scope float_scope.

Record Vector3 : Type := mkVector3 { x : float; y : float; z : float }.

(** [v.addScaledVector(w, s)] *)
Definition addScaledVector (v w : Vector3) (s : float) : Vector3 :=
  mkVector3 (x v + x w * s) (y v + y w * s) (z v + z w * s).

(** [a.distanceTo(b)] *)
Definition distanceTo (a b : Vector3) : float :=
  let dx := x a - x b in
  let dy := y a - y b in
  let dz := z a - z b in
  PrimFloat.sqrt (dx * dx + dy * dy + dz * dz).

Record SafetyConfig : Type := mkSafetyConfig {
  baseConfirmDistance : float;
  minConfirmDistance : float;
  yOffset : float;
  safetyMargin : float;
  nearMargin : float;
  pushOutStep : float
}.

Definition safetyConfig : SafetyConfig :=
  {| baseConfirmDistance := 8.5;
     minConfirmDistance := 5.0;
     yOffset := 0.2;
     safetyMargin := 4.5;
     nearMargin := 0.8;
     pushOutStep := 0.1 |}.

(** The viewer: [camera.position] and [camera.near]. *)
Record Camera : Type := mkCamera { position : Vector3; near : float }.

(** The near plane the constructor gives the camera. *)
Definition CAMERA_NEAR : float := 0.1.

(** The ring of undrawn cards: [ringRadius] around the pivot
    [(0, 0, ringCenterZ)]. *)
Record Ring : Type := mkRing { ringRadius : float; ringCenterZ : float }.

Definition engineRing : Ring := {| ringRadius := 12.0; ringCenterZ := 22.0 |}.

Definition PUSH_LIMIT : nat := 40.

Definition checkIntersectionWithCarousel (ring : Ring) (pos : Vector3) : bool :=
  let distFromCarouselPivot := distanceTo pos (mkVector3 0 0 (ringCenterZ ring)) in
  let isNearArc :=
    PrimFloat.abs (distFromCarouselPivot - ringRadius ring) <? safetyMargin safetyConfig in
  let isNearHorizon := PrimFloat.abs (y pos) <? 2.0 in
  isNearArc && isNearHorizon.

(** What one call leaves behind: [targetPosition] and the three fields of
    [debugInfo]. *)
Record Placement : Type := mkPlacement {
  targetPosition : Vector3;
  pushCount : nat;
  intersected : bool;
  actualDist : float
}.

(** The body of [while (intersected && pushCount < 40)].  The loop is
    entered with [intersected] true, and every pass that does not end it
    increments [pushCount]; [budget] is [40 - pushCount], so the loop
    condition fails exactly when [budget] is 0 (still flagged) or when a
    pass clears the flag. *)
Fixpoint pushLoop (camera : Camera) (ring : Ring) (camForward camUp : Vector3)
    (budget : nat) (dist : float) (pos : Vector3) (pushCount : nat) : Placement :=
  match budget with
  | O => mkPlacement pos pushCount true dist
  | S budget' =>
      let pos :=
        addScaledVector
          (addScaledVector (position camera) camForward dist)
          camUp (yOffset safetyConfig) in
      let intersected := checkIntersectionWithCarousel ring pos in
      let minSafeDist := near camera + nearMargin safetyConfig in
      let clamp := dist <=? minSafeDist in
      let dist := if clamp then minSafeDist else dist in
      let intersected := if clamp then false else intersected in
      if intersected
      then pushLoop camera ring camForward camUp budget'
             (dist - pushOutStep safetyConfig) pos (S pushCount)
      else mkPlacement pos pushCount false dist
  end.

Definition resolveConfirmedSafety (camera : Camera) (ring : Ring)
    (camForward camUp : Vector3) : Placement :=
  pushLoop camera ring camForward camUp PUSH_LIMIT
    (baseConfirmDistance safetyConfig) (mkVector3 0 0 0) 0.

(** The distance the search holds after [k] decrements of the base
    distance. *)
Fixpoint distanceAfter (k : nat) : float :=
  match k with
  | O => baseConfirmDistance safetyConfig
  | S k' => distanceAfter k' - pushOutStep safetyConfig
  end.

(** The candidate position at distance [dist] along the forward axis. *)
Definition candidate (camera : Camera) (camForward camUp : Vector3) (dist : float) : Vector3 :=
  addScaledVector (addScaledVector (position camera) camForward dist)
    camUp (yOffset safetyConfig).

(** The floor of the search for the engine's camera: near plane plus
    margin. *)
Definition minSafeDist : float := CAMERA_NEAR + nearMargin safetyConfig.

(** The search without the floor test, for comparison. *)
Fixpoint pushLoopNoFloor (camera : Camera) (ring : Ring) (camForward camUp : Vector3)
    (budget : nat) (dist : float) (pos : Vector3) (pushCount : nat) : Placement :=
  match budget with
  | O => mkPlacement pos pushCount true dist
  | S budget' =>
      let pos := candidate camera camForward camUp dist in
      if checkIntersectionWithCarousel ring pos
      then pushLoopNoFloor camera ring camForward camUp budget'
             (dist - pushOutStep safetyConfig) pos (S pushCount)
      else mkPlacement pos pushCount false dist
  end.

End Resolver.

(** ** The engine: session state, stabilizer state and the state machine *)

Module Game.

(** The fields of [GameEngine] that the gesture pipeline and the session
    logic read or write.  [cardRing] is the list of the cards the ring's
    meshes carry ([userData.cardData]), [None] before the ring is built;
    [currentCardMesh] tells whether the mesh of the active card exists;
    [pendingTimeouts] counts the callbacks that [triggerDisintegrate] has
    scheduled and that have not run yet.  Scene objects, pointer position
    and smoothing targets are rendering state and are not part of it. *)
Record Engine : Type := mkEngine {
  state : GameState;
  inputMode : InputMode;
  currentGesture : Gesture;
  gestureBuffer : list Gesture;
  gestureCooldown : Z;
  pinchStartTime : Z;
  fistStartTime : Z;
  deck : list TarotCardData;
  history : list History.CardHistory;
  sessionDrawnCount : nat;
  isReversed : bool;
  activeCardData : option TarotCardData;
  cardRing : option (list TarotCardData);
  currentCardMesh : bool;
  pendingTimeouts : nat
}.

Definition set_state (v : GameState) (e : Engine) : Engine :=
  mkEngine v (inputMode e) (currentGesture e) (gestureBuffer e)
    (gestureCooldown e) (pinchStartTime e) (fistStartTime e) (deck e)
    (history e) (sessionDrawnCount e) (isReversed e) (activeCardData e)
    (cardRing e) (currentCardMesh e) (pendingTimeouts e).

Definition set_inputMode (v : InputMode) (e : Engine) : Engine :=
  mkEngine (state e) v (currentGesture e) (gestureBuffer e)
    (gestureCooldown e) (pinchStartTime e) (fistStartTime e) (deck e)
    (history e) (sessionDrawnCount e) (isReversed e) (activeCardData e)
    (cardRing e) (currentCardMesh e) (pendingTimeouts e).

Definition set_currentGesture (v : Gesture) (e : Engine) : Engine :=
  mkEngine (state e) (inputMode e) v (gestureBuffer e) (gestureCooldown e)
    (pinchStartTime e) (fistStartTime e) (deck e) (history e)
    (sessionDrawnCount e) (isReversed e) (activeCardData e) (cardRing e)
    (currentCardMesh e) (pendingTimeouts e).

Definition set_gestureBuffer (v : list Gesture) (e : Engine) : Engine :=
  mkEngine (state e) (inputMode e) (currentGesture e) v (gestureCooldown e)
    (pinchStartTime e) (fistStartTime e) (deck e) (history e)
    (sessionDrawnCount e) (isReversed e) (activeCardData e) (cardRing e)
    (currentCardMesh e) (pendingTimeouts e).

Definition set_gestureCooldown (v : Z) (e : Engine) : Engine :=
  mkEngine (state e) (inputMode e) (currentGesture e) (gestureBuffer e) v
    (pinchStartTime e) (fistStartTime e) (deck e) (history e)
    (sessionDrawnCount e) (isReversed e) (activeCardData e) (cardRing e)
    (currentCardMesh e) (pendingTimeouts e).

Definition set_pinchStartTime (v : Z) (e : Engine) : Engine :=
  mkEngine (state e) (inputMode e) (currentGesture e) (gestureBuffer e)
    (gestureCooldown e) v (fistStartTime e) (deck e) (history e)
    (sessionDrawnCount e) (isReversed e) (activeCardData e) (cardRing e)
    (currentCardMesh e) (pendingTimeouts e).

Definition set_fistStartTime (v : Z) (e : Engine) : Engine :=
  mkEngine (state e) (inputMode e) (currentGesture e) (gestureBuffer e)
    (gestureCooldown e) (pinchStartTime e) v (deck e) (history e)
    (sessionDrawnCount e) (isReversed e) (activeCardData e) (cardRing e)
    (currentCardMesh e) (pendingTimeouts e).

Definition set_deck (v : list TarotCardData) (e : Engine) : Engine :=
  mkEngine (state e) (inputMode e) (currentGesture e) (gestureBuffer e)
    (gestureCooldown e) (pinchStartTime e) (fistStartTime e) v (history e)
    (sessionDrawnCount e) (isReversed e) (activeCardData e) (cardRing e)
    (currentCardMesh e) (pendingTimeouts e).

Definition set_history (v : list History.CardHistory) (e : Engine) : Engine :=
  mkEngine (state e) (inputMode e) (currentGesture e) (gestureBuffer e)
    (gestureCooldown e) (pinchStartTime e) (fistStartTime e) (deck e) v
    (sessionDrawnCount e) (isReversed e) (activeCardData e) (cardRing e)
    (currentCardMesh e) (pendingTimeouts e).

Definition set_sessionDrawnCount (v : nat) (e : Engine) : Engine :=
  mkEngine (state e) (inputMode e) (currentGesture e) (gestureBuffer e)
    (gestureCooldown e) (pinchStartTime e) (fistStartTime e) (deck e)
    (history e) v (isReversed e) (activeCardData e) (cardRing e)
    (currentCardMesh e) (pendingTimeouts e).

Definition set_isReversed (v : bool) (e : Engine) : Engine :=
  mkEngine (state e) (inputMode e) (currentGesture e) (gestureBuffer e)
    (gestureCooldown e) (pinchStartTime e) (fistStartTime e) (deck e)
    (history e) (sessionDrawnCount e) v (activeCardData e) (cardRing e)
    (currentCardMesh e) (pendingTimeouts e).

Definition set_activeCardData (v : option TarotCardData) (e : Engine) : Engine :=
  mkEngine (state e) (inputMode e) (currentGesture e) (gestureBuffer e)
    (gestureCooldown e) (pinchStartTime e) (fistStartTime e) (deck e)
    (history e) (sessionDrawnCount e) (isReversed e) v (cardRing e)
    (currentCardMesh e) (pendingTimeouts e).

Definition set_cardRing (v : option (list TarotCardData)) (e : Engine) : Engine :=
  mkEngine (state e) (inputMode e) (currentGesture e) (gestureBuffer e)
    (gestureCooldown e) (pinchStartTime e) (fistStartTime e) (deck e)
    (history e) (sessionDrawnCount e) (isReversed e) (activeCardData e) v
    (currentCardMesh e) (pendingTimeouts e).

Definition set_currentCardMesh (v : bool) (e : Engine) : Engine :=
  mkEngine (state e) (inputMode e) (currentGesture e) (gestureBuffer e)
    (gestureCooldown e) (pinchStartTime e) (fistStartTime e) (deck e)
    (history e) (sessionDrawnCount e) (isReversed e) (activeCardData e)
    (cardRing e) v (pendingTimeouts e).

Definition set_pendingTimeouts (v : nat) (e : Engine) : Engine :=
  mkEngine (state e) (inputMode e) (currentGesture e) (gestureBuffer e)
    (gestureCooldown e) (pinchStartTime e) (fistStartTime e) (deck e)
    (history e) (sessionDrawnCount e) (isReversed e) (activeCardData e)
    (cardRing e) (currentCardMesh e) v.

(** *** What a handler lets the outside observe, and how it may end *)

(** The calls the claims speak of: [onGestureEnter], [onGestureHold] and
    [resetDeck]. *)
Inductive Call : Type :=
  | Entered (g : Gesture)
  | Held (g : Gesture)
  | DeckReset.

(** A handler ends normally with a value or raises; either way the fields it
    has written so far stay written. *)
Record Outcome (A : Type) : Type := mkOutcome {
  calls : list Call;
  final : Engine;
  value : option A
}.

Definition M (A : Type) : Type := Engine -> Outcome A.

Definition ret {A : Type} (a : A) : M A := fun e => mkOutcome [] e (Some a).

Definition bind {A B : Type} (m : M A) (k : A -> M B) : M B :=
  fun e =>
    match m e with
    | mkOutcome l e' (Some a) =>
        match k a e' with
        | mkOutcome l' e'' r => mkOutcome (l ++ l') e'' r
        end
    | mkOutcome l e' None => mkOutcome l e' None
    end.

Definition get : M Engine := fun e => mkOutcome [] e (Some e).

Definition modify (f : Engine -> Engine) : M unit :=
  fun e => mkOutcome [] (f e) (Some tt).

Definition throw {A : Type} : M A := fun e => mkOutcome [] e None.

Definition emit (c : Call) : M unit := fun e => mkOutcome [c] e (Some tt).

Notation "x <- m ;; k" := (bind m (fun x => k))
  (at level 61, m at next level, right associativity).
Notation "m ;; k" := (bind m (fun _ => k))
  (at level 61, right associativity).

Definition when (b : bool) (m : M unit) : M unit := if b then m else ret tt.

(** What holds of the calls, the engine and the result once a handler,
    started on [e], has ended. *)
Definition post {A : Type} (m : M A) (e : Engine)
    (Q : list Call -> Engine -> option A -> Prop) : Prop :=
  Q (calls (m e)) (final (m e)) (value (m e)).

(** *** What a handler reads from outside the engine *)

(** [now] is the [Date.now()] that [handleGestureUpdate] reads and [stamp]
    the one [confirmCard] reads; [rayHit] is the position, among the ring's
    children, of the nearest mesh the pointer ray meets ([intersects[0]]),
    if any; [coin] is the outcome of [Math.random() < 0.5]; [random i] is
    the draw of [Math.random()] the shuffle makes at index [i], as the
    integer it is scaled to. *)
Record Inputs : Type := mkInputs {
  now : Z;
  rayHit : option nat;
  coin : bool;
  random : nat -> nat;
  stamp : Z
}.

Definition MAX_DRAW_PER_SESSION : nat := 3.

(** *** Shuffle *)

Fixpoint setAt {A : Type} (l : list A) (i : nat) (v : A) : list A :=
  match l, i with
  | [], _ => []
  | _ :: rest, O => v :: rest
  | a :: rest, S i' => a :: setAt rest i' v
  end.

(** [[l[i], l[j]] = [l[j], l[i]]] for indices within the list. *)
Definition swap {A : Type} (l : list A) (i j : nat) : list A :=
  match nth_error l i, nth_error l j with
  | Some a, Some b => setAt (setAt l i b) j a
  | _, _ => l
  end.

(** [for (let i = ...; i > 0; i--)] from index [i] downwards, with
    [j = Math.floor(Math.random() * (i + 1))]. *)
Fixpoint shuffleFrom {A : Type} (random : nat -> nat) (i : nat) (l : list A) : list A :=
  match i with
  | O => l
  | S i' => shuffleFrom random i' (swap l i (random i mod (i + 1)))
  end.

Definition shuffle {A : Type} (random : nat -> nat) (l : list A) : list A :=
  shuffleFrom random (length l - 1) l.

(** *** The methods *)

Definition setState (s : GameState) : M unit := modify (set_state s).

Definition shuffleDeck (random : nat -> nat) : M unit :=
  modify (fun e => set_deck (shuffle random (deck e)) e).

Definition createCardRing : M unit :=
  modify (fun e => set_cardRing (Some (deck e)) e).

Definition createCardMesh : M unit := modify (set_currentCardMesh true).

Definition tryGrab (io : Inputs) : M unit :=
  e <- get ;;
  if MAX_DRAW_PER_SESSION <=? sessionDrawnCount e then ret tt
  else
    match cardRing e with
    | None => throw
    | Some children =>
        match bindOpt (rayHit io) (nth_error children) with
        | None => ret tt
        | Some cardData =>
            modify (set_activeCardData (Some cardData)) ;;
            modify (set_isReversed (coin io)) ;;
            modify (fun e =>
              set_deck (filter (fun c => negb (id c =? id cardData)) (deck e)) e) ;;
            createCardRing ;;
            createCardMesh ;;
            setState GRABBING
        end
    end.

Definition confirmCard (io : Inputs) : M unit :=
  modify (fun e => set_sessionDrawnCount (S (sessionDrawnCount e)) e) ;;
  setState CONFIRMED ;;
  e <- get ;;
  match activeCardData e with
  | None => throw
  | Some active =>
      modify (set_history
                (History.mkHistory (name_zh active) (isReversed e) (stamp io) active
                 :: history e))
  end.

Definition triggerDisintegrate : M unit :=
  e <- get ;;
  if negb (GameState_eqb (state e) CONFIRMED) then ret tt
  else
    setState DISINTEGRATING ;;
    modify (set_currentCardMesh false) ;;
    modify (fun e => set_pendingTimeouts (S (pendingTimeouts e)) e).

(** The callback that [triggerDisintegrate] schedules after 2.5 s. *)
Definition disintegrateTimeout : M unit := setState READY.

Definition resetDeck (random : nat -> nat) : M unit :=
  emit DeckReset ;;
  modify (set_deck TAROT_DECK) ;;
  shuffleDeck random ;;
  modify (set_history []) ;;
  modify (set_sessionDrawnCount 0) ;;
  createCardRing ;;
  modify (set_currentCardMesh false) ;;
  setState READY.

Definition onGestureEnter (gesture : Gesture) (io : Inputs) : M unit :=
  emit (Entered gesture) ;;
  e <- get ;;
  if Gesture_eqb gesture PINCH && GameState_eqb (state e) READY then tryGrab io
  else if Gesture_eqb gesture FIST then
    if GameState_eqb (state e) PREVIEW then confirmCard io
    else if GameState_eqb (state e) CONFIRMED then triggerDisintegrate
    else if GameState_eqb (state e) READY
            && (MAX_DRAW_PER_SESSION <=? sessionDrawnCount e)
    then resetDeck (random io)
    else ret tt
  else ret tt.

Definition onGestureHold (gesture : Gesture) : M unit := emit (Held gesture).

(** The two hold checks at the head of [handleGestureUpdate]: the value of
    [processedGesture] when they are done. *)
Definition verifyHold (gesture : Gesture) (now : Z) : M Gesture :=
  processed <-
    (if Gesture_eqb gesture PINCH then
       (e <- get ;; when (pinchStartTime e =? 0)%Z (modify (set_pinchStartTime now))) ;;
       e <- get ;;
       if (now - pinchStartTime e <? Stabilizer.PINCH_REQUIRED_HOLD)%Z
       then ret (if Gesture_eqb (currentGesture e) PINCH then PINCH else NONE)
       else ret gesture
     else
       modify (set_pinchStartTime 0%Z) ;; ret gesture) ;;
  if Gesture_eqb gesture FIST then
    (e <- get ;; when (fistStartTime e =? 0)%Z (modify (set_fistStartTime now))) ;;
    e <- get ;;
    if (now - fistStartTime e <? Stabilizer.FIST_REQUIRED_HOLD)%Z
    then ret (if Gesture_eqb (currentGesture e) FIST then FIST else NONE)
    else ret processed
  else
    modify (set_fistStartTime 0%Z) ;; ret processed.

Definition handleGestureUpdate (gesture : Gesture) (io : Inputs) : M unit :=
  processedGesture <- verifyHold gesture (now io) ;;
  e <- get ;;
  when (negb (Gesture_eqb (currentGesture e) processedGesture)
        && (gestureCooldown e <? now io)%Z)
    (modify (set_currentGesture processedGesture) ;;
     onGestureEnter processedGesture io ;;
     modify (set_gestureCooldown (now io + 50)%Z)) ;;
  e <- get ;;
  onGestureHold (currentGesture e).

Definition lift {A : Type} (o : option A) : M A :=
  match o with
  | Some a => ret a
  | None => throw
  end.

(** [results] is the first hand of [results.multiHandLandmarks], [None]
    when no hand was detected. *)
Definition processHandResults (results : option (list Classifier.Landmark))
    (io : Inputs) : M unit :=
  e <- get ;;
  if negb (InputMode_eqb (inputMode e) HANDS) then ret tt
  else
    match results with
    | None => handleGestureUpdate NONE io
    | Some landmarks =>
        rawGesture <- lift (Classifier.detectGestureRaw landmarks) ;;
        modify (fun e =>
          set_gestureBuffer (Stabilizer.pushGesture (gestureBuffer e) rawGesture) e) ;;
        e <- get ;;
        stableGesture <- lift (Stabilizer.getStableGesture (gestureBuffer e)) ;;
        handleGestureUpdate stableGesture io
    end.

(** The [mousedown] listener; [onCard] tells whether the pointer ray meets
    the active card's mesh. *)
Definition onMouseDown (button : nat) (onCard : bool) (io : Inputs) : M unit :=
  e <- get ;;
  if negb (InputMode_eqb (inputMode e) MOUSE) then ret tt
  else if button =? 0 then
    if GameState_eqb (state e) CONFIRMED || GameState_eqb (state e) PREVIEW then
      if negb (currentCardMesh e) then throw
      else if onCard then ret tt
      else handleGestureUpdate PINCH io
    else handleGestureUpdate PINCH io
  else if button =? 2 then handleGestureUpdate FIST io
  else ret tt.

Definition onMouseUp (io : Inputs) : M unit :=
  e <- get ;;
  if InputMode_eqb (inputMode e) MOUSE then handleGestureUpdate NONE io else ret tt.

(** The part of [updateCardTransform] that moves the state machine;
    [nearAnchor] tells whether the active card is within 3.5 units of the
    preview anchor. *)
Definition updateCardTransform (nearAnchor : bool) : M unit :=
  e <- get ;;
  if negb (currentCardMesh e) then ret tt
  else
    match state e with
    | GRABBING => when nearAnchor (setState PREVIEW)
    | _ => ret tt
    end.

Definition init (random : nat -> nat) : M unit :=
  shuffleDeck random ;;
  createCardRing ;;
  setState READY.

(** The engine as its field initializers leave it. *)
Definition constructed : Engine :=
  {| state := IDLE;
     inputMode := HANDS;
     currentGesture := NONE;
     gestureBuffer := [];
     gestureCooldown := 0;
     pinchStartTime := 0;
     fistStartTime := 0;
     deck := TAROT_DECK;
     history := [];
     sessionDrawnCount := 0;
     isReversed := false;
     activeCardData := None;
     cardRing := None;
     currentCardMesh := false;
     pendingTimeouts := 0 |}.

(** *** Events and runs *)

Inductive Event : Type :=
  | Init (random : nat -> nat)
  | SelectMode (mode : InputMode)
  | HandResults (results : option (list Classifier.Landmark)) (io : Inputs)
  | MouseDown (button : nat) (onCard : bool) (io : Inputs)
  | MouseUp (io : Inputs)
  | Animate (nearAnchor : bool)
  | Timeout
  | ResetDeck (random : nat -> nat).

Definition handler (ev : Event) : M unit :=
  match ev with
  | Init random => init random
  | SelectMode mode => modify (set_inputMode mode)
  | HandResults results io => processHandResults results io
  | MouseDown button onCard io => onMouseDown button onCard io
  | MouseUp io => onMouseUp io
  | Animate nearAnchor => updateCardTransform nearAnchor
  | Timeout =>
      e <- get ;;
      match pendingTimeouts e with
      | O => ret tt
      | S n => modify (set_pendingTimeouts n) ;; disintegrateTimeout
      end
  | ResetDeck random => resetDeck random
  end.

(** One event, handled to its end; what it raises is reported by the host
    and the engine goes on from the fields as they are. *)
Definition step (e : Engine) (ev : Event) : Engine := final (handler ev e).

Definition run (e : Engine) (evs : list Event) : Engine := fold_left step evs e.

Definition reachable (e : Engine) : Prop := exists evs, e = run constructed evs.

(** One draw, as five callbacks in a row: a PINCH enters (the grab), a
    frame finds the card at the preview anchor, a FIST enters (the
    confirmation), a second FIST enters (the card is let go), and the
    disintegration times out. *)
Definition drawOnce (grab confirm dismiss : Inputs) (e : Engine) : Engine :=
  let e1 := final (onGestureEnter PINCH grab e) in
  let e2 := final (updateCardTransform true e1) in
  let e3 := final (onGestureEnter FIST confirm e2) in
  let e4 := final (onGestureEnter FIST dismiss e3) in
  step e4 Timeout.

(** *** Readings of a run *)

Definition cardIds (cards : list TarotCardData) : list nat := map id cards.

Definition historyIds (entries : list History.CardHistory) : list nat :=
  map (fun h => id (History.cardData h)) entries.

Definition isEntered (c : Call) : bool :=
  match c with Entered _ => true | _ => false end.

(** How often [onGestureEnter] was called. *)
Definition enterCount (l : list Call) : nat := length (filter isEntered l).

(** The [Date.now()] reading of the events that carry a gesture update. *)
Definition updateTime (ev : Event) : option Z :=
  match ev with
  | HandResults _ io | MouseDown _ _ io | MouseUp io => Some (now io)
  | _ => None
  end.

(** The times, in order, of the events of a run at which the current
    gesture changed. *)
Fixpoint changeTimes (e : Engine) (evs : list Event) : list Z :=
  match evs with
  | [] => []
  | ev :: rest =>
      let e' := step e ev in
      match updateTime ev with
      | Some t =>
          if Gesture_eqb (currentGesture e) (currentGesture e')
          then changeTimes e' rest
          else t :: changeTimes e' rest
      | None => changeTimes e' rest
      end
  end.

(** A stream of updates that all carry the same gesture: the calls it
    makes, and the engine it leaves. *)
Fixpoint updateStream (gesture : Gesture) (ios : list Inputs) (e : Engine)
    : list Call * Engine :=
  match ios with
  | [] => ([], e)
  | io :: rest =>
      let r := handleGestureUpdate gesture io e in
      let (l, e') := updateStream gesture rest (final r) in
      (calls r ++ l, e')
  end.

(** *** The invariant of the session *)

Record Inv (e : Engine) : Prop := mkInv {
  inv_quota : sessionDrawnCount e <= MAX_DRAW_PER_SESSION;
  inv_drawing :
    state e = GRABBING \/ state e = PREVIEW ->
    sessionDrawnCount e < MAX_DRAW_PER_SESSION;
  inv_history_length : length (history e) = sessionDrawnCount e;
  inv_deck_nodup : NoDup (cardIds (deck e));
  inv_history_nodup : NoDup (historyIds (history e));
  inv_disjoint : forall i, In i (historyIds (history e)) -> ~ In i (cardIds (deck e));
  inv_active :
    state e = GRABBING \/ state e = PREVIEW ->
    exists c, activeCardData e = Some c
              /\ ~ In (id c) (cardIds (deck e))
              /\ ~ In (id c) (historyIds (history e));
  inv_ring :
    cardRing e = Some (deck e)
    \/ (cardRing e = None /\ state e = IDLE /\ pendingTimeouts e = 0);
  inv_mesh :
    state e = PREVIEW \/ state e = CONFIRMED -> currentCardMesh e = true;
  inv_buffer : length (gestureBuffer e) <= Stabilizer.BUFFER_SIZE
}.

(** Two engines that differ at most in the stabilizer's own fields. *)
Definition sameSession (e e' : Engine) : Prop :=
  state e' = state e /\ inputMode e' = inputMode e
  /\ gestureBuffer e' = gestureBuffer e /\ deck e' = deck e
  /\ history e' = history e /\ sessionDrawnCount e' = sessionDrawnCount e
  /\ isReversed e' = isReversed e /\ activeCardData e' = activeCardData e
  /\ cardRing e' = cardRing e /\ currentCardMesh e' = currentCardMesh e
  /\ pendingTimeouts e' = pendingTimeouts e.

(** Two engines whose stabilizer fields agree. *)
Definition sameStabilizer (e e' : Engine) : Prop :=
  currentGesture e' = currentGesture e /\ gestureCooldown e' = gestureCooldown e
  /\ pinchStartTime e' = pinchStartTime e /\ fistStartTime e' = fistStartTime e.

(** How one handler may move the drawn count: up or not at all, unless it
    resets the deck, and then to 0. *)
Definition quotaStep (e e' : Engine) (l : list Call) : Prop :=
  (In DeckReset l /\ sessionDrawnCount e' = 0)
  \/ (~ In DeckReset l /\ sessionDrawnCount e <= sessionDrawnCount e').

(** How one handler may move the current gesture: a change is accepted
    only by an update whose time [now] is past the cooldown, it sets the
    cooldown to [now + 50] and calls [onGestureEnter] once; otherwise
    gesture and cooldown stay and there is no such call. *)
Definition gestureStep (time : option Z) (e e' : Engine) (l : list Call) : Prop :=
  (currentGesture e' <> currentGesture e
   /\ (exists now, time = Some now /\ (gestureCooldown e < now)%Z
                   /\ gestureCooldown e' = (now + 50)%Z)
   /\ enterCount l = 1
   /\ forall g, In (Entered g) l -> g = currentGesture e')
  \/ (currentGesture e' = currentGesture e
      /\ gestureCooldown e' = gestureCooldown e
      /\ enterCount l = 0).

End Game.

(** ** Sample inputs *)

Module Samples.

Import Game.

Local Open Scope float_scope.

Definition hand (points : list (float * float)) : list Classifier.Landmark :=
  map (fun p : float * float => Classifier.mkLandmark (fst p) (snd p) 0) points.

(** An open hand seen from the front: wrist at the bottom, each finger a
    column of four points above its base knuckle, the thumb to the side. *)
Definition openHand : list Classifier.Landmark :=
  hand [ (0.5, 0.9);
         (0.4, 0.85); (0.32, 0.78); (0.26, 0.7); (0.2, 0.62);
         (0.42, 0.6); (0.41, 0.48); (0.4, 0.4); (0.4, 0.32);
         (0.5, 0.58); (0.5, 0.45); (0.5, 0.36); (0.5, 0.28);
         (0.57, 0.6); (0.58, 0.48); (0.59, 0.4); (0.59, 0.33);
         (0.64, 0.64); (0.66, 0.55); (0.67, 0.48); (0.68, 0.42) ].

(** The same hand with the thumb tip brought to the index tip. *)
Definition pinchHand : list Classifier.Landmark :=
  hand [ (0.5, 0.9);
         (0.4, 0.85); (0.36, 0.7); (0.36, 0.5); (0.4, 0.34);
         (0.42, 0.6); (0.41, 0.48); (0.4, 0.4); (0.4, 0.32);
         (0.5, 0.58); (0.5, 0.45); (0.5, 0.36); (0.5, 0.28);
         (0.57, 0.6); (0.58, 0.48); (0.59, 0.4); (0.59, 0.33);
         (0.64, 0.64); (0.66, 0.55); (0.67, 0.48); (0.68, 0.42) ].

(** A closed hand: every finger tip curled back below its base knuckle. *)
Definition fistHand : list Classifier.Landmark :=
  hand [ (0.5, 0.9);
         (0.4, 0.85); (0.36, 0.78); (0.38, 0.72); (0.44, 0.68);
         (0.42, 0.6); (0.42, 0.55); (0.44, 0.62); (0.45, 0.7);
         (0.5, 0.58); (0.5, 0.53); (0.5, 0.62); (0.5, 0.7);
         (0.57, 0.6); (0.57, 0.55); (0.56, 0.62); (0.55, 0.7);
         (0.64, 0.64); (0.63, 0.6); (0.61, 0.65); (0.6, 0.72) ].

(** A hand whose four finger tips are each exactly 1.05 times as far from
    the wrist as their second joint: index and middle lie along the x
    axis, ring and pinky along the y axis, the wrist at the corner. *)
Definition marginHand : list Classifier.Landmark :=
  hand [ (0, 0);
         (0.1, 0.1); (0.2, 0.2); (0.3, 0.3); (0.4, 0.4);
         (0.3, 0); (0.5, 0); (0.51, 0); (0.525, 0);
         (0.2, 0); (0.25, 0); (0.26, 0); (0.2625, 0);
         (0, 0.3); (0, 0.5); (0, 0.51); (0, 0.525);
         (0, 0.2); (0, 0.25); (0, 0.26); (0, 0.2625) ].

(** The engine's camera as [setupScene] places it: at [(0, 0, 18)],
    looking at the origin. *)
Definition sceneCameraPosition : Resolver.Vector3 := Resolver.mkVector3 0 0 18.
Definition sceneForward : Resolver.Vector3 := Resolver.mkVector3 0 0 (-1).
Definition sceneUp : Resolver.Vector3 := Resolver.mkVector3 0 1 0.

Local Close Scope float_scope.

(** What a handler reads at time [t] when the pointer ray meets the ring
    child at position [hit]. *)
Definition ioAt (t : Z) (hit : option nat) : Inputs :=
  {| now := t; rayHit := hit; coin := Z.even (t / 1000);
     random := fun i => 7 * i + 3; stamp := (t + 1)%Z |}.

Definition frames (frame : list Classifier.Landmark) (hit : option nat)
    (times : list Z) : list Event :=
  map (fun t => HandResults (Some frame) (ioAt t hit)) times.

(** One draw by hand, from time [t]: a pinch held on the ring child [hit],
    the card carried to the preview anchor, a fist to confirm, an open
    hand, a second fist to let the card go, and the end of the
    disintegration. *)
Definition drawEvents (t : Z) (hit : nat) : list Event :=
  (frames pinchHand (Some hit) [t; t + 40; t + 80; t + 120; t + 160]
   ++ [Animate true]
   ++ frames fistHand None [t + 200; t + 240; t + 280; t + 320]
   ++ frames openHand None [t + 400; t + 440]
   ++ frames fistHand None [t + 520; t + 560; t + 600; t + 640]
   ++ [Timeout])%Z.

Definition freshSession : Engine := run constructed [Init (fun i => 7 * i + 3)].

Definition threeDraws : list Event :=
  drawEvents 1000 5 ++ drawEvents 2000 0 ++ drawEvents 3000 17.

Definition afterThreeDraws : Engine := run freshSession threeDraws.

(** The same session as one run from the constructed engine. *)
Definition threeDrawsRun : list Event := Init (fun i => 7 * i + 3) :: threeDraws.

(** An open hand and then a fist, held: a FIST enters in READY. *)
Definition fistAgain : list Event :=
  frames openHand None [4000; 4040]%Z
  ++ frames fistHand None [4120; 4160; 4200; 4240]%Z.

Definition afterReset : Engine := run afterThreeDraws fistAgain.

(** A stream of three PINCH updates spanning 79 ms. *)
Definition shortPinch : list Inputs :=
  [ioAt 1000 (Some 0); ioAt 1040 (Some 0); ioAt 1079 (Some 0)].

(** A stream of three FIST updates spanning 39 ms. *)
Definition shortFist : list Inputs :=
  [ioAt 1000 None; ioAt 1020 None; ioAt 1039 None].

(** A hand that pinches in the frames at [times] and is open in the frame
    at [after], the pointer on the ring child 3 throughout. *)
Definition briefPinch (times : list Z) (after : Z) : list Event :=
  frames pinchHand (Some 3) times ++ frames openHand (Some 3) [after].

End Samples.

(** ** Further readings of the engine *)

Unset Implicit Arguments.

Module Lifecycle.

Import Game.

(** A frame with its depth coordinates set to 0. *)
Definition planar (p : Classifier.Landmark) : Classifier.Landmark :=
  Classifier.mkLandmark (Classifier.x p) (Classifier.y p) 0%float.

(** The gestures and states on which [onGestureEnter] does more than note
    the call. *)
Definition entersTransition (gesture : Gesture) (e : Engine) : bool :=
  match gesture, state e with
  | PINCH, READY => true
  | FIST, PREVIEW | FIST, CONFIRMED => true
  | FIST, READY => MAX_DRAW_PER_SESSION <=? sessionDrawnCount e
  | _, _ => false
  end.

(** The value of [processedGesture] that the hold checks of
    [handleGestureUpdate] reach for an update carrying [gesture] at time
    [now]. *)
Definition processedGesture (gesture : Gesture) (now : Z) (e : Engine) : Gesture :=
  match gesture with
  | PINCH =>
      Stabilizer.effectiveGesture (currentGesture e) PINCH
        Stabilizer.PINCH_REQUIRED_HOLD
        (now - Stabilizer.holdStart (pinchStartTime e) now)
  | FIST =>
      Stabilizer.effectiveGesture (currentGesture e) FIST
        Stabilizer.FIST_REQUIRED_HOLD
        (now - Stabilizer.holdStart (fistStartTime e) now)
  | _ => gesture
  end.

(** The hold timers an update carrying [gesture] at time [now] leaves. *)
Definition timersAfter (gesture : Gesture) (now : Z) (e : Engine) : Z * Z :=
  (if Gesture_eqb gesture PINCH
   then Stabilizer.holdStart (pinchStartTime e) now else 0%Z,
   if Gesture_eqb gesture FIST
   then Stabilizer.holdStart (fistStartTime e) now else 0%Z).

(** The calls of a run, in order. *)
Fixpoint runCalls (e : Engine) (evs : list Event) : list Call :=
  match evs with
  | [] => []
  | ev :: rest => calls (handler ev e) ++ runCalls (step e ev) rest
  end.

(** A press of a mouse button and its release. *)
Definition click (button : nat) (onCard : bool) (down up : Inputs) : list Event :=
  [MouseDown button onCard down; MouseUp up].

(** The edges of the interaction lifecycle: READY from anywhere, and the
    chain READY, GRABBING, PREVIEW, CONFIRMED, DISINTEGRATING. *)
Definition lifecycleEdge (s s' : GameState) : bool :=
  match s, s' with
  | _, READY => true
  | READY, GRABBING | GRABBING, PREVIEW
  | PREVIEW, CONFIRMED | CONFIRMED, DISINTEGRATING => true
  | _, _ => false
  end.

(** The cards of two engines agree: deck, ring, history, drawn count,
    orientation and active card. *)
Definition sameCards (e e' : Engine) : Prop :=
  deck e' = deck e /\ cardRing e' = cardRing e /\ history e' = history e
  /\ sessionDrawnCount e' = sessionDrawnCount e
  /\ isReversed e' = isReversed e /\ activeCardData e' = activeCardData e.

(** What one handler may do to the session: nothing ([Stay]); take the
    grabbed card to the preview ([Carry]); grab a card of the deck
    ([Grab]); confirm the active card ([Confirm]); let the confirmed card
    go and schedule the timeout ([Release]); run a scheduled timeout
    ([Expire]); reset the deck ([Restart]); or shuffle it at
    initialization ([Reshuffle]). *)
Inductive Move (e e' : Engine) : Prop :=
  | Stay :
      state e' = state e -> sameCards e e' ->
      pendingTimeouts e' = pendingTimeouts e ->
      Move e e'
  | Carry :
      state e = GRABBING -> state e' = PREVIEW -> sameCards e e' ->
      pendingTimeouts e' = pendingTimeouts e ->
      Move e e'
  | Grab (c : TarotCardData) (orientation : bool) :
      state e = READY -> state e' = GRABBING ->
      sessionDrawnCount e < MAX_DRAW_PER_SESSION ->
      In c (deck e) ->
      deck e' = filter (fun d => negb (id d =? id c)) (deck e) ->
      cardRing e' = Some (deck e') ->
      activeCardData e' = Some c -> isReversed e' = orientation ->
      history e' = history e -> sessionDrawnCount e' = sessionDrawnCount e ->
      pendingTimeouts e' = pendingTimeouts e ->
      Move e e'
  | Confirm (c : TarotCardData) (time : Z) :
      state e = PREVIEW -> state e' = CONFIRMED ->
      activeCardData e = Some c -> activeCardData e' = Some c ->
      isReversed e' = isReversed e ->
      history e' = History.mkHistory (name_zh c) (isReversed e) time c :: history e ->
      sessionDrawnCount e' = S (sessionDrawnCount e) ->
      deck e' = deck e -> cardRing e' = cardRing e ->
      pendingTimeouts e' = pendingTimeouts e ->
      Move e e'
  | Release :
      state e = CONFIRMED -> state e' = DISINTEGRATING -> sameCards e e' ->
      pendingTimeouts e' = S (pendingTimeouts e) ->
      Move e e'
  | Expire :
      state e' = READY -> sameCards e e' ->
      pendingTimeouts e = S (pendingTimeouts e') ->
      Move e e'
  | Restart (shuffled : list TarotCardData) :
      state e' = READY ->
      Permutation shuffled TAROT_DECK ->
      deck e' = shuffled -> cardRing e' = Some shuffled ->
      history e' = [] -> sessionDrawnCount e' = 0 ->
      isReversed e' = isReversed e -> activeCardData e' = activeCardData e ->
      pendingTimeouts e' = pendingTimeouts e ->
      Move e e'
  | Reshuffle (shuffled : list TarotCardData) :
      state e' = READY ->
      Permutation shuffled (deck e) ->
      deck e' = shuffled -> cardRing e' = Some shuffled ->
      history e' = history e -> sessionDrawnCount e' = sessionDrawnCount e ->
      isReversed e' = isReversed e -> activeCardData e' = activeCardData e ->
      pendingTimeouts e' = pendingTimeouts e ->
      Move e e'.

(** Further facts that hold of every engine a run can reach. *)
Record Settled (e : Engine) : Prop := mkSettled {
  settled_timeout : state e = DISINTEGRATING -> 0 < pendingTimeouts e;
  settled_deck : incl (deck e) TAROT_DECK;
  settled_history :
    forall h, In h (history e) ->
      In (History.cardData h) TAROT_DECK
      /\ History.name h = name_zh (History.cardData h);
  settled_active :
    forall c, activeCardData e = Some c -> In c TAROT_DECK;
  settled_confirmed :
    state e = CONFIRMED ->
    exists c h rest,
      activeCardData e = Some c /\ history e = h :: rest
      /\ History.cardData h = c /\ History.isReversed h = isReversed e
      /\ History.name h = name_zh c
}.

End Lifecycle.

(** ** More sample inputs *)

Module MoreSamples.

Import Game Samples.

(** The first draw of the sample session up to the second fist: the card
    is disintegrating. *)
Definition untilDisintegrating : list Event := firstn 17 threeDrawsRun.

(** A session by mouse: initialized, then switched to the mouse. *)
Definition mouseSession : Engine :=
  run constructed [Init (fun i => 7 * i + 3); SelectMode MOUSE].

(** Three clicks: left on the ring, right, and left again. *)
Definition sampleClicks : list (nat * bool * Inputs * Inputs) :=
  [ (0, false, ioAt 1000 (Some 3), ioAt 1200 (Some 3));
    (2, false, ioAt 2000 None, ioAt 2300 None);
    (0, true, ioAt 3000 (Some 4), ioAt 3090 (Some 4)) ].

End MoreSamples.

(** * Properties *)

Unset Implicit Arguments.

(** ** Gesture classifier *)

Section ClassifierFacts.

Import Classifier Samples.
Local Open Scope float_scope.

Lemma point_nth_error (frame : list Landmark) (i : nat) :
  (i < length frame)%nat -> nth_error frame i = Some (point frame i).
Proof.
  intros Hi. unfold point. now apply nth_error_nth'.
Qed.

Lemma two_of_three (m r p : bool) :
  (2 <=? b2n m + b2n r + b2n p)%nat = true <->
  (m = true /\ r = true) \/ (m = true /\ p = true) \/ (r = true /\ p = true).
Proof.
  destruct m, r, p; cbn; intuition congruence.
Qed.

Lemma three_of_four (i m r p : bool) :
  (3 <=? b2n i + b2n m + b2n r + b2n p)%nat = true <->
  (m = true /\ r = true /\ p = true) \/ (i = true /\ r = true /\ p = true) \/
  (i = true /\ m = true /\ p = true) \/ (i = true /\ m = true /\ r = true).
Proof.
  destruct i, m, r, p; cbn; intuition congruence.
Qed.

(** The classifier on a frame that has all its points, as a decision list
    over the comparisons it makes. *)
Lemma detectGestureRaw_unfold (frame : list Landmark) :
  (21 <= length frame)%nat ->
  let folded f := wristDistance frame (fingerTip f) <? wristDistance frame (baseKnuckle f) in
  let extended f := wristDistance frame (secondJoint f) * 1.05 <? wristDistance frame (fingerTip f) in
  detectGestureRaw frame =
  Some (if folded Index
           && (2 <=? b2n (folded Middle) + b2n (folded Ring) + b2n (folded Pinky))%nat
        then FIST
        else if (planarDistance (point frame 4) (point frame 8) <? PINCH_THRESHOLD)
                && negb (folded Index)
        then PINCH
        else if (3 <=? b2n (extended Index) + b2n (extended Middle)
                       + b2n (extended Ring) + b2n (extended Pinky))%nat
        then OPEN else NONE).
Proof.
  intros Hlen folded extended.
  unfold detectGestureRaw.
  repeat (rewrite !point_nth_error by lia; cbn [bindOpt filterOpt Nat.sub]).
  subst folded extended. unfold wristDistance, planarDistance, getDist.
  cbn [fingerTip baseKnuckle secondJoint].
  destruct (_ && _); [reflexivity|].
  destruct (_ && _); [reflexivity|].
  repeat match goal with
         | |- context [(?a <? ?b)%float] => destruct (a <? b)%float
         end; reflexivity.
Qed.

Lemma FistRule_test (frame : list Landmark) :
  let folded f := wristDistance frame (fingerTip f) <? wristDistance frame (baseKnuckle f) in
  FistRule frame <->
  folded Index
  && (2 <=? b2n (folded Middle) + b2n (folded Ring) + b2n (folded Pinky))%nat = true.
Proof.
  intros folded. unfold FistRule, Folded. fold (folded Index).
  rewrite andb_true_iff, two_of_three. split.
  - intros [Hi (a & b & Hab & Ha & Hb & Fa & Fb)]. split; [exact Hi|].
    destruct a, b; try congruence; fold (folded Middle) (folded Ring) (folded Pinky) in *;
      tauto.
  - intros [Hi H]. split; [exact Hi|].
    destruct H as [[H1 H2] | [[H1 H2] | [H1 H2]]].
    + exists Middle, Ring. repeat split; try discriminate; assumption.
    + exists Middle, Pinky. repeat split; try discriminate; assumption.
    + exists Ring, Pinky. repeat split; try discriminate; assumption.
Qed.

Lemma PinchRule_test (frame : list Landmark) :
  PinchRule frame <->
  (planarDistance (point frame 4) (point frame 8) <? PINCH_THRESHOLD)
  && negb (wristDistance frame (fingerTip Index) <? wristDistance frame (baseKnuckle Index))
  = true.
Proof.
  unfold PinchRule, Folded, PINCH_THRESHOLD.
  rewrite andb_true_iff, negb_true_iff, not_true_iff_false. tauto.
Qed.

Lemma StrictOpenRule_test (frame : list Landmark) :
  let extended f := wristDistance frame (secondJoint f) * 1.05 <? wristDistance frame (fingerTip f) in
  StrictOpenRule frame <->
  (3 <=? b2n (extended Index) + b2n (extended Middle)
         + b2n (extended Ring) + b2n (extended Pinky))%nat = true.
Proof.
  intros extended. unfold StrictOpenRule, StrictlyExtended.
  rewrite three_of_four. split.
  - intros [spare H].
    assert (Hall : forall f, f <> spare -> extended f = true) by exact H.
    destruct spare;
      [ left | right; left | right; right; left | right; right; right ];
      repeat split; apply Hall; discriminate.
  - intros [(H1 & H2 & H3) | [(H1 & H2 & H3) | [(H1 & H2 & H3) | (H1 & H2 & H3)]]];
      [ exists Index | exists Middle | exists Ring | exists Pinky ];
      intros f Hf; destruct f; try congruence; assumption.
Qed.

(** On doubles, "at least" is "more than" or "equal". *)
Lemma leb_ltb_eqb (a b : float) : (a <=? b) = (a <? b) || (a =? b).
Proof.
  rewrite FloatAxioms.leb_spec, FloatAxioms.ltb_spec, FloatAxioms.eqb_spec.
  unfold SFleb, SFltb, SFeqb.
  destruct (SFcompare (Prim2SF a) (Prim2SF b)) as [[ | | ] | ]; reflexivity.
Qed.

Lemma StrictlyExtended_Extended (frame : list Landmark) (f : Finger) :
  StrictlyExtended frame f -> Extended frame f.
Proof.
  unfold StrictlyExtended, Extended. intros H. now rewrite leb_ltb_eqb, H.
Qed.

(** C4. On a frame that has its 21 points the classifier answers, and its
    answer follows the rules in priority order: FIST exactly when the index
    finger is folded and at least two of middle, ring and pinky are; else
    PINCH exactly when the planar distance from thumb tip to index tip is
    below 0.22 and the index finger is not folded; else OPEN exactly when at
    least three of the four fingers have their tip farther from the wrist
    than their second joint by more than the margin of 5 percent; else
    NONE.  A finger that is extended by more than the margin is extended
    by at least the margin, so an OPEN answer satisfies the rule of the
    design; a finger exactly on the margin is extended for the design and
    not for the classifier. *)
Theorem detectGestureRaw_priority_rules (frame : list Landmark) :
  (21 <= length frame)%nat ->
  (exists g : Gesture,
      detectGestureRaw frame = Some g /\
      (g = FIST <-> FistRule frame) /\
      (g = PINCH <-> ~ FistRule frame /\ PinchRule frame) /\
      (g = OPEN <->
       ~ FistRule frame /\ ~ PinchRule frame /\ StrictOpenRule frame) /\
      (g = NONE <->
       ~ FistRule frame /\ ~ PinchRule frame /\ ~ StrictOpenRule frame)) /\
  (detectGestureRaw frame = Some OPEN -> OpenRule frame) /\
  (forall f : Finger,
      Extended frame f <->
      StrictlyExtended frame f
      \/ (wristDistance frame (secondJoint f) * 1.05
          =? wristDistance frame (fingerTip f)) = true).
Proof.
  intros Hlen.
  assert (Hstrict : forall f, StrictlyExtended frame f -> Extended frame f)
    by (intros f; apply StrictlyExtended_Extended).
  pose proof (FistRule_test frame) as HF.
  pose proof (PinchRule_test frame) as HP.
  pose proof (StrictOpenRule_test frame) as HO.
  cbv zeta in HF, HO. cbn [fingerTip baseKnuckle secondJoint] in *.
  split; [| split].
  - rewrite (detectGestureRaw_unfold frame Hlen).
    cbv zeta. cbn [fingerTip baseKnuckle secondJoint].
    eexists. split; [reflexivity|].
    destruct (_ && (2 <=? _)%nat) eqn:EF;
      [| destruct (_ && negb _) eqn:EP; [| destruct (3 <=? _)%nat eqn:EO ] ];
      rewrite ?EF, ?EP, ?EO in *;
      intuition (discriminate || congruence).
  - rewrite (detectGestureRaw_unfold frame Hlen).
    cbv zeta. cbn [fingerTip baseKnuckle secondJoint].
    intros Hopen.
    assert (Hs : StrictOpenRule frame).
    { apply HO.
      destruct (_ && (2 <=? _)%nat); [discriminate |].
      destruct (_ && negb _); [discriminate |].
      destruct (3 <=? _)%nat; [reflexivity | discriminate]. }
    destruct Hs as [spare Hs]. exists spare. intros f Hf. apply Hstrict, Hs, Hf.
  - intros f. unfold Extended, StrictlyExtended.
    rewrite leb_ltb_eqb, orb_true_iff. reflexivity.
Qed.

Lemma detectGestureRaw_priority_rules_witness :
  (exists g : Gesture,
      detectGestureRaw openHand = Some g /\
      (g = FIST <-> FistRule openHand) /\
      (g = PINCH <-> ~ FistRule openHand /\ PinchRule openHand) /\
      (g = OPEN <->
       ~ FistRule openHand /\ ~ PinchRule openHand /\ StrictOpenRule openHand) /\
      (g = NONE <->
       ~ FistRule openHand /\ ~ PinchRule openHand /\ ~ StrictOpenRule openHand)) /\
  (detectGestureRaw openHand = Some OPEN -> OpenRule openHand) /\
  (forall f : Finger,
      Extended openHand f <->
      StrictlyExtended openHand f
      \/ (wristDistance openHand (secondJoint f) * 1.05
          =? wristDistance openHand (fingerTip f)) = true).
Proof.
  apply (detectGestureRaw_priority_rules openHand). simpl. lia.
Defined.

(** On [marginHand] no finger is folded and thumb and index tips are far
    apart, and each finger is extended by the margin of 5 percent, not
    more: the rule of the design says OPEN, the classifier NONE. *)
Lemma detectGestureRaw_margin_is_strict :
  length marginHand = 21%nat /\
  ~ FistRule marginHand /\ ~ PinchRule marginHand /\ OpenRule marginHand /\
  detectGestureRaw marginHand = Some NONE.
Proof.
  split; [reflexivity |]. split; [| split; [| split]].
  - intros [H _]. vm_compute in H. discriminate.
  - intros [H _]. vm_compute in H. discriminate.
  - exists Index. intros f _. destruct f; vm_compute; reflexivity.
  - vm_compute. reflexivity.
Qed.

(** C10. Whatever the frame, the classifier never answers POINT: when it
    answers at all, the answer is FIST, PINCH, OPEN or NONE, and it does
    answer on every frame that has its 21 points. *)
Theorem detectGestureRaw_never_POINT (frame : list Landmark) :
  detectGestureRaw frame <> Some POINT /\
  (forall g, detectGestureRaw frame = Some g ->
             g = FIST \/ g = PINCH \/ g = OPEN \/ g = NONE) /\
  ((21 <= length frame)%nat -> detectGestureRaw frame <> None).
Proof.
  assert (Hrange : forall g, detectGestureRaw frame = Some g ->
                             g = FIST \/ g = PINCH \/ g = OPEN \/ g = NONE).
  { intros g. unfold detectGestureRaw.
    repeat match goal with
           | |- context [bindOpt ?o _] =>
               destruct o; cbn [bindOpt]; [| discriminate ]
           | |- context [if ?b then _ else _] => destruct b
           end;
      intros H; inversion H; auto. }
  split; [| split ].
  - intros H. apply Hrange in H. intuition discriminate.
  - exact Hrange.
  - intros Hlen. rewrite (detectGestureRaw_unfold frame Hlen). discriminate.
Qed.

End ClassifierFacts.

(** ** Gesture stabilizer: buffer and majority vote *)

Section StabilizerFacts.

Import Stabilizer.

Lemma Gesture_eqb_eq (a b : Gesture) : Gesture_eqb a b = true <-> a = b.
Proof. destruct a, b; cbn; split; congruence. Qed.

Lemma Gesture_eqb_refl (a : Gesture) : Gesture_eqb a a = true.
Proof. now destruct a. Qed.

Lemma Gesture_eqb_neq (a b : Gesture) : Gesture_eqb a b = false <-> a <> b.
Proof. destruct a, b; cbn; split; congruence. Qed.

Lemma Gesture_eqb_sym (a b : Gesture) : Gesture_eqb a b = Gesture_eqb b a.
Proof. now destruct a, b. Qed.

Lemma GameState_eqb_eq (a b : GameState) : GameState_eqb a b = true <-> a = b.
Proof. destruct a, b; cbn; split; congruence. Qed.

(** The buffer holds the last four labels pushed. *)
Lemma pushGesture_short (buffer : list Gesture) (raw : Gesture) :
  length buffer < BUFFER_SIZE -> pushGesture buffer raw = buffer ++ [raw].
Proof.
  intros H. unfold pushGesture.
  rewrite length_app. cbn [length].
  destruct (Nat.ltb_spec BUFFER_SIZE (length buffer + 1)); [lia | reflexivity].
Qed.

Lemma pushGesture_full (buffer : list Gesture) (raw : Gesture) :
  length buffer = BUFFER_SIZE -> pushGesture buffer raw = tl buffer ++ [raw].
Proof.
  intros H. unfold pushGesture.
  rewrite length_app. cbn [length].
  destruct (Nat.ltb_spec BUFFER_SIZE (length buffer + 1)); [| lia].
  destruct buffer; [discriminate H | reflexivity].
Qed.

Lemma pushGesture_length (buffer : list Gesture) (raw : Gesture) :
  length buffer <= BUFFER_SIZE -> length (pushGesture buffer raw) <= BUFFER_SIZE.
Proof.
  intros H. destruct (Nat.eq_dec (length buffer) BUFFER_SIZE) as [E | E].
  - rewrite pushGesture_full by assumption.
    rewrite length_app. destruct buffer; [discriminate E|]. cbn in *. lia.
  - rewrite pushGesture_short by lia. rewrite length_app. cbn. lia.
Qed.






Lemma keys_increment (acc : Counts) (curr : Gesture) :
  keys (increment acc curr) =
  if existsb (Gesture_eqb curr) (keys acc) then keys acc else keys acc ++ [curr].
Proof.
  induction acc as [| [k n] acc IH]; cbn.
  - reflexivity.
  - rewrite (Gesture_eqb_sym curr k).
    destruct (Gesture_eqb k curr); cbn.
    + reflexivity.
    + fold (keys acc). fold (keys (increment acc curr)). rewrite IH.
      now destruct (existsb _ _).
Qed.

Lemma keys_fold (buffer : list Gesture) (acc : Counts) :
  keys (fold_left increment buffer acc) =
  keys acc ++ firstOccurrences (keys acc) buffer.
Proof.
  revert acc. induction buffer as [| g buffer IH]; intros acc; cbn [fold_left firstOccurrences].
  - now rewrite app_nil_r.
  - rewrite IH, keys_increment.
    destruct (existsb _ _); [reflexivity|].
    now rewrite <- app_assoc.
Qed.

Lemma keys_countGestures (buffer : list Gesture) :
  keys (countGestures buffer) = firstOccurrences [] buffer.
Proof. unfold countGestures. now rewrite keys_fold. Qed.

Lemma firstOccurrences_nonempty (g : Gesture) (buffer : list Gesture) :
  firstOccurrences [] (g :: buffer) = g :: firstOccurrences [g] buffer.
Proof. reflexivity. Qed.




End StabilizerFacts.

(** ** Safety placement resolver *)

Section ResolverFacts.

Import Resolver.
Local Open Scope float_scope.

(** Every distance the search can hold lies above the floor and at or
    above 4.5: checked on the 41 values. *)
Lemma distanceAfter_checked :
  forallb (fun k => negb (distanceAfter k <=? minSafeDist)
                    && (minSafeDist <? distanceAfter k)
                    && (4.5 <=? distanceAfter k))
          (seq 0 41) = true.
Proof. vm_compute. reflexivity. Qed.

Lemma distanceAfter_bounds (k : nat) :
  (k <= PUSH_LIMIT)%nat ->
  (distanceAfter k <=? minSafeDist) = false /\
  (minSafeDist <? distanceAfter k) = true /\
  (4.5 <=? distanceAfter k) = true.
Proof.
  intros Hk. pose proof distanceAfter_checked as H.
  rewrite forallb_forall in H. specialize (H k).
  rewrite in_seq in H. unfold PUSH_LIMIT in Hk.
  specialize (H ltac:(lia)).
  rewrite !andb_true_iff, negb_true_iff in H. tauto.
Qed.

Lemma floor_le_of_lt (k : nat) :
  (k <= PUSH_LIMIT)%nat -> (minSafeDist <=? distanceAfter k) = true.
Proof.
  intros Hk. pose proof distanceAfter_checked as H.
  assert (H' : forallb (fun k => minSafeDist <=? distanceAfter k) (seq 0 41) = true)
    by (vm_compute; reflexivity).
  rewrite forallb_forall in H'. apply H'. rewrite in_seq.
  unfold PUSH_LIMIT in Hk. lia.
Qed.

Section OnePose.

Variables (cameraPosition camForward camUp : Vector3) (ring : Ring).

Let camera : Camera := mkCamera cameraPosition CAMERA_NEAR.

(** The candidate at the distance reached after [k] pushes is unsafe. *)
Let unsafe (k : nat) : bool :=
  checkIntersectionWithCarousel ring
    (candidate camera camForward camUp (distanceAfter k)).

(** With the engine's constants the floor test never fires: the search is
    the search without it. *)
Lemma pushLoop_floor_idle (budget k : nat) (pos : Vector3) :
  (budget + k = PUSH_LIMIT)%nat ->
  pushLoop camera ring camForward camUp budget (distanceAfter k) pos k =
  pushLoopNoFloor camera ring camForward camUp budget (distanceAfter k) pos k.
Proof.
  revert k pos. induction budget as [| budget IH]; intros k pos Hk; cbn [pushLoop pushLoopNoFloor].
  - reflexivity.
  - cbn [near camera].
    destruct (distanceAfter_bounds k ltac:(lia)) as (Hfloor & _).
    unfold minSafeDist in Hfloor. rewrite Hfloor.
    fold (candidate camera camForward camUp (distanceAfter k)).
    destruct (checkIntersectionWithCarousel _ _); [| reflexivity].
    change (distanceAfter k - pushOutStep safetyConfig) with (distanceAfter (S k)).
    apply IH. lia.
Qed.

(** What the search returns: the first candidate found safe, or, when all
    forty are unsafe, the last candidate tested, flagged, with the distance
    after the fortieth push. *)
Lemma pushLoopNoFloor_result (budget k : nat) (pos : Vector3) :
  (budget + k = PUSH_LIMIT)%nat ->
  let r := pushLoopNoFloor camera ring camForward camUp budget (distanceAfter k) pos k in
  (exists j, (k <= j < PUSH_LIMIT)%nat /\
             (forall i, (k <= i < j)%nat -> unsafe i = true) /\
             unsafe j = false /\
             r = mkPlacement (candidate camera camForward camUp (distanceAfter j))
                   j false (distanceAfter j))
  \/
  ((forall i, (k <= i < PUSH_LIMIT)%nat -> unsafe i = true) /\
   r = mkPlacement
         (match budget with
          | O => pos
          | S _ => candidate camera camForward camUp (distanceAfter (PUSH_LIMIT - 1))
          end)
         PUSH_LIMIT true (distanceAfter PUSH_LIMIT)).
Proof.
  revert k pos. induction budget as [| budget IH]; intros k pos Hk; cbn [pushLoopNoFloor].
  - right. cbn in Hk. subst k. split; [intros i Hi; lia | reflexivity].
  - destruct (checkIntersectionWithCarousel ring
                (candidate camera camForward camUp (distanceAfter k))) eqn:Hu.
    + change (distanceAfter k - pushOutStep safetyConfig) with (distanceAfter (S k)).
      destruct (IH (S k) (candidate camera camForward camUp (distanceAfter k)) ltac:(lia))
        as [(j & Hj & Hall & Hsafe & Hr) | (Hall & Hr)].
      * left. exists j. repeat split; try lia; try assumption.
        intros i Hi. destruct (Nat.eq_dec i k) as [-> | Hne]; [exact Hu|].
        apply Hall. lia.
      * right. split.
        -- intros i Hi. destruct (Nat.eq_dec i k) as [-> | Hne]; [exact Hu|].
           apply Hall. lia.
        -- rewrite Hr. f_equal.
           destruct budget; [| reflexivity].
           replace k with (PUSH_LIMIT - 1)%nat by lia. reflexivity.
    + left. exists k. repeat split; try lia; try assumption.
Qed.

Lemma resolveConfirmedSafety_result :
  let r := resolveConfirmedSafety camera ring camForward camUp in
  (exists j, (j < PUSH_LIMIT)%nat /\
             (forall i, (i < j)%nat -> unsafe i = true) /\
             unsafe j = false /\
             r = mkPlacement (candidate camera camForward camUp (distanceAfter j))
                   j false (distanceAfter j))
  \/
  ((forall i, (i < PUSH_LIMIT)%nat -> unsafe i = true) /\
   r = mkPlacement (candidate camera camForward camUp (distanceAfter (PUSH_LIMIT - 1)))
         PUSH_LIMIT true (distanceAfter PUSH_LIMIT)).
Proof.
  unfold resolveConfirmedSafety.
  change (baseConfirmDistance safetyConfig) with (distanceAfter 0).
  rewrite pushLoop_floor_idle by reflexivity.
  destruct (pushLoopNoFloor_result PUSH_LIMIT 0 (mkVector3 0 0 0) eq_refl)
    as [(j & Hj & Hall & Hsafe & Hr) | (Hall & Hr)].
  - left. exists j. repeat split; try lia; try assumption.
    intros i Hi. apply Hall. lia.
  - right. split; [| exact Hr].
    intros i Hi. apply Hall. lia.
Qed.

End OnePose.

(** C2. For every camera position, forward axis, up axis and ring, the
    resolver returns a placement whose distance is at least the floor (near
    plane plus 0.8) and whose push count is at most 40; and when all forty
    candidates are unsafe it still returns: the last candidate tested,
    flagged as intersecting, after exactly 40 pushes. *)
Theorem resolveConfirmedSafety_floor_and_cap
    (cameraPosition camForward camUp : Vector3) (ring : Ring) :
  let camera := mkCamera cameraPosition CAMERA_NEAR in
  let r := resolveConfirmedSafety camera ring camForward camUp in
  (near camera + nearMargin safetyConfig <=? actualDist r) = true /\
  (pushCount r <= 40)%nat /\
  (intersected r = true <->
   forall k, (k < 40)%nat ->
     checkIntersectionWithCarousel ring
       (candidate camera camForward camUp (distanceAfter k)) = true) /\
  (intersected r = true ->
   pushCount r = 40%nat /\
   targetPosition r = candidate camera camForward camUp (distanceAfter 39)).
Proof.
  intros camera r.
  destruct (resolveConfirmedSafety_result cameraPosition camForward camUp ring)
    as [(j & Hj & Hall & Hsafe & Hr) | (Hall & Hr)];
    fold camera in Hr; fold r in Hr; rewrite Hr; cbn [actualDist pushCount intersected targetPosition near camera].
  - split; [apply (floor_le_of_lt j); lia |].
    split; [unfold PUSH_LIMIT in Hj; lia |].
    split; [| discriminate].
    split; [discriminate |].
    intros H. unfold PUSH_LIMIT in Hj. specialize (H j Hj).
    fold camera in Hsafe. congruence.
  - split; [apply (floor_le_of_lt PUSH_LIMIT); lia |].
    split; [unfold PUSH_LIMIT; lia |].
    split; [| intros _; split; reflexivity].
    split; [| reflexivity].
    intros _ k Hk. apply Hall. exact Hk.
Qed.

(** C9. With the engine's constants every distance the resolver returns is
    the base distance less a whole number of steps, at most forty, hence at
    least 4.5 and strictly above the floor 0.9; none of the distances the
    search can hold is at or below the floor, so the clamping branch is
    never taken and the search is the search without it. *)
Theorem resolveConfirmedSafety_floor_unreachable
    (cameraPosition camForward camUp : Vector3) (ring : Ring) :
  let camera := mkCamera cameraPosition CAMERA_NEAR in
  let r := resolveConfirmedSafety camera ring camForward camUp in
  (pushCount r <= 40)%nat /\
  actualDist r = distanceAfter (pushCount r) /\
  (4.5 <=? actualDist r) = true /\
  (near camera + nearMargin safetyConfig <? actualDist r) = true /\
  (forall k, (k <= 40)%nat ->
     (distanceAfter k <=? near camera + nearMargin safetyConfig) = false) /\
  r = pushLoopNoFloor camera ring camForward camUp 40
        (baseConfirmDistance safetyConfig) (mkVector3 0 0 0) 0.
Proof.
  intros camera r.
  assert (Hidle : r = pushLoopNoFloor camera ring camForward camUp 40
                        (baseConfirmDistance safetyConfig) (mkVector3 0 0 0) 0).
  { subst r. unfold resolveConfirmedSafety.
    change (baseConfirmDistance safetyConfig) with (distanceAfter 0).
    apply pushLoop_floor_idle. reflexivity. }
  assert (Hfloor : forall k, (k <= 40)%nat ->
            (distanceAfter k <=? near camera + nearMargin safetyConfig) = false).
  { intros k Hk. apply (distanceAfter_bounds k). exact Hk. }
  destruct (resolveConfirmedSafety_result cameraPosition camForward camUp ring)
    as [(j & Hj & _ & _ & Hr) | (_ & Hr)];
    fold camera in Hr; fold r in Hr;
    (split; [| split; [| split; [| split; [| split; [exact Hfloor | exact Hidle]]]]]);
    rewrite Hr; cbn [actualDist pushCount near camera]; unfold PUSH_LIMIT in *;
    try lia; try reflexivity;
    try (apply (distanceAfter_bounds j); unfold PUSH_LIMIT; lia);
    apply (distanceAfter_bounds 40); unfold PUSH_LIMIT; lia.
Qed.

End ResolverFacts.

(** ** Lists: removal by identity, and the shuffle *)

Section ListFacts.

Import Game.

Lemma cardIds_filter_In (p : TarotCardData -> bool) (l : list TarotCardData) (i : nat) :
  In i (cardIds (filter p l)) -> In i (cardIds l).
Proof.
  unfold cardIds. rewrite !in_map_iff.
  intros (c & Hc & Hin). apply filter_In in Hin. exists c. tauto.
Qed.

Lemma cardIds_filter_NoDup (p : TarotCardData -> bool) (l : list TarotCardData) :
  NoDup (cardIds l) -> NoDup (cardIds (filter p l)).
Proof.
  unfold cardIds. induction l as [| a l IH]; cbn; intros H; [constructor|].
  inversion H as [| ? ? Hnotin Hnd]; subst.
  destruct (p a); cbn; [constructor |]; auto.
  intros Hin. apply Hnotin. now apply (cardIds_filter_In p).
Qed.

Lemma removed_id_absent (t : TarotCardData) (l : list TarotCardData) :
  ~ In (id t) (cardIds (filter (fun c => negb (id c =? id t)) l)).
Proof.
  unfold cardIds. rewrite in_map_iff. intros (c & Hc & Hin).
  apply filter_In in Hin. destruct Hin as [_ Hne].
  rewrite Hc, Nat.eqb_refl in Hne. discriminate.
Qed.

Lemma removed_card_absent (t : TarotCardData) (l : list TarotCardData) :
  ~ In t (filter (fun c => negb (id c =? id t)) l).
Proof.
  intros Hin. apply (removed_id_absent t l). unfold cardIds. now apply in_map.
Qed.

(** Removal by identity takes out exactly one card when identities are
    unique. *)
Lemma removed_exactly_one (t : TarotCardData) (l : list TarotCardData) :
  NoDup (cardIds l) -> In t l ->
  length l = S (length (filter (fun c => negb (id c =? id t)) l)).
Proof.
  unfold cardIds. induction l as [| a l IH]; cbn; intros Hnd Hin; [contradiction|].
  inversion Hnd as [| ? ? Hnotin Hnd']; subst.
  destruct Hin as [-> | Hin].
  - rewrite Nat.eqb_refl. cbn. f_equal.
    clear IH Hnd Hnd'. induction l as [| b l IH]; cbn; [reflexivity|].
    destruct (Nat.eqb_spec (id b) (id t)) as [E | E]; cbn.
    + exfalso. apply Hnotin. left. exact E.
    + f_equal. apply IH. intros H. apply Hnotin. now right.
  - destruct (Nat.eqb_spec (id a) (id t)) as [E | E]; cbn.
    + exfalso. apply Hnotin. rewrite E. now apply in_map.
    + f_equal. now apply IH.
Qed.

Lemma setAt_length {A : Type} (l : list A) (i : nat) (v : A) :
  length (setAt l i v) = length l.
Proof.
  revert i. induction l as [| a l IH]; intros [| i]; cbn; auto.
Qed.

Lemma setAt_same {A : Type} (l : list A) (i : nat) (v : A) :
  nth_error l i = Some v -> setAt l i v = l.
Proof.
  revert i. induction l as [| a l IH]; intros [| i]; cbn; intros H; try reflexivity.
  - now inversion H.
  - f_equal. now apply IH.
Qed.

Lemma setAt_nth_error_other {A : Type} (l : list A) (i j : nat) (v : A) :
  i <> j -> nth_error (setAt l i v) j = nth_error l j.
Proof.
  revert i j. induction l as [| a l IH]; intros [| i] [| j]; cbn; intros H;
    try reflexivity; try congruence.
  apply IH. lia.
Qed.

Lemma setAt_exchange_head {A : Type} (l : list A) (j : nat) (a b : A) :
  nth_error l j = Some b -> Permutation (b :: setAt l j a) (a :: l).
Proof.
  revert j. induction l as [| d l IH]; intros j Hj; [destruct j; discriminate|].
  destruct j as [| j]; cbn in *.
  - inversion Hj; subst. apply perm_swap.
  - etransitivity; [apply perm_swap|].
    etransitivity; [apply perm_skip, (IH j Hj) |]. apply perm_swap.
Qed.

(** Exchanging two entries of a list rearranges it. *)
Lemma swap_Permutation {A : Type} (l : list A) (i j : nat) :
  Permutation (swap l i j) l.
Proof.
  unfold swap.
  destruct (nth_error l i) as [a |] eqn:Hi; [| reflexivity].
  destruct (nth_error l j) as [b |] eqn:Hj; [| reflexivity].
  revert i j Hi Hj. induction l as [| c l IH]; intros i j Hi Hj.
  - destruct i; discriminate.
  - destruct i as [| i], j as [| j]; cbn in *.
    + inversion Hi; inversion Hj; subst. reflexivity.
    + inversion Hi; subst c. now apply setAt_exchange_head.
    + inversion Hj; subst c. now apply setAt_exchange_head.
    + apply perm_skip. now apply IH.
Qed.

Lemma shuffleFrom_Permutation {A : Type} (random : nat -> nat) (i : nat) (l : list A) :
  Permutation (shuffleFrom random i l) l.
Proof.
  revert l. induction i as [| i IH]; intros l; cbn [shuffleFrom]; [reflexivity|].
  etransitivity; [apply IH | apply swap_Permutation].
Qed.

Lemma shuffle_Permutation {A : Type} (random : nat -> nat) (l : list A) :
  Permutation (shuffle random l) l.
Proof. apply shuffleFrom_Permutation. Qed.

Lemma shuffle_length {A : Type} (random : nat -> nat) (l : list A) :
  length (shuffle random l) = length l.
Proof. apply Permutation_length, shuffle_Permutation. Qed.

Lemma shuffle_cardIds_NoDup (random : nat -> nat) (l : list TarotCardData) :
  NoDup (cardIds l) -> NoDup (cardIds (shuffle random l)).
Proof.
  intros H. eapply Permutation_NoDup; [| exact H].
  unfold cardIds. apply Permutation_map. symmetry. apply shuffle_Permutation.
Qed.

Lemma TAROT_DECK_ids_NoDup : NoDup (cardIds TAROT_DECK).
Proof.
  apply (NoDup_count_occ' Nat.eq_dec).
  intros i Hi. cbn in Hi.
  repeat (destruct Hi as [<- | Hi]; [reflexivity |]). contradiction.
Qed.

Lemma TAROT_DECK_length : length TAROT_DECK = 31.
Proof. reflexivity. Qed.

End ListFacts.

(** ** The session state machine *)

Section MonadFacts.

Import Game.

Lemma post_ret {A : Type} (a : A) (e : Engine)
    (Q : list Call -> Engine -> option A -> Prop) :
  Q [] e (Some a) -> post (ret a) e Q.
Proof. exact (fun H => H). Qed.

Lemma post_get (e : Engine) (Q : list Call -> Engine -> option Engine -> Prop) :
  Q [] e (Some e) -> post get e Q.
Proof. exact (fun H => H). Qed.

Lemma post_modify (f : Engine -> Engine) (e : Engine)
    (Q : list Call -> Engine -> option unit -> Prop) :
  Q [] (f e) (Some tt) -> post (modify f) e Q.
Proof. exact (fun H => H). Qed.

Lemma post_throw {A : Type} (e : Engine)
    (Q : list Call -> Engine -> option A -> Prop) :
  Q [] e None -> post throw e Q.
Proof. exact (fun H => H). Qed.

Lemma post_emit (c : Call) (e : Engine)
    (Q : list Call -> Engine -> option unit -> Prop) :
  Q [c] e (Some tt) -> post (emit c) e Q.
Proof. exact (fun H => H). Qed.

Lemma post_bind {A B : Type} (m : M A) (k : A -> M B) (e : Engine)
    (Q : list Call -> Engine -> option B -> Prop) :
  post m e (fun l e' v =>
              match v with
              | Some a => post (k a) e' (fun l' e'' v' => Q (l ++ l') e'' v')
              | None => Q l e' None
              end) ->
  post (bind m k) e Q.
Proof.
  unfold post, bind. destruct (m e) as [l e' [a |]]; cbn [calls final value].
  - destruct (k a e') as [l' e'' v']. exact (fun H => H).
  - exact (fun H => H).
Qed.

Lemma post_conseq {A : Type} (m : M A) (e : Engine)
    (Q Q' : list Call -> Engine -> option A -> Prop) :
  post m e Q -> (forall l e' v, Q l e' v -> Q' l e' v) -> post m e Q'.
Proof. unfold post. intros H HQ. apply HQ, H. Qed.

End MonadFacts.

(** One step through a handler's text: the rule for its head, or a case
    split on the test it branches on. *)
Ltac mstep :=
  match goal with
  | |- Game.post (Game.bind _ _) _ _ => apply post_bind
  | |- Game.post Game.get _ _ => apply post_get
  | |- Game.post (Game.modify _) _ _ => apply post_modify
  | |- Game.post (Game.ret _) _ _ => apply post_ret
  | |- Game.post Game.throw _ _ => apply post_throw
  | |- Game.post (Game.emit _) _ _ => apply post_emit
  | |- Game.post (Game.when _ _) _ _ => unfold Game.when
  | |- Game.post (Game.setState _) _ _ => unfold Game.setState
  | |- Game.post Game.createCardRing _ _ => unfold Game.createCardRing
  | |- Game.post Game.createCardMesh _ _ => unfold Game.createCardMesh
  | |- Game.post (Game.shuffleDeck _) _ _ => unfold Game.shuffleDeck
  | |- Game.post (Game.lift _) _ _ => unfold Game.lift
  | |- Game.post Game.disintegrateTimeout _ _ => unfold Game.disintegrateTimeout
  | |- Game.post (Game.onGestureHold _) _ _ => unfold Game.onGestureHold
  | |- Game.post (if ?b then _ else _) _ _ => destruct b eqn:?
  | |- Game.post (match ?x with _ => _ end) _ _ => destruct x eqn:?
  end; cbv beta iota.

Ltac mrun := cbv beta iota; repeat mstep.

(** The conjuncts of a postcondition, the immediate ones closed. *)
Ltac split_post :=
  repeat match goal with |- _ /\ _ => split end;
  try assumption; try reflexivity;
  try solve [unfold Game.sameStabilizer; simpl; repeat split].

(** The follow-up of a method whose postcondition is known. *)
Ltac mcall H :=
  eapply post_conseq; [ H | cbv beta; intros ? ? ? ].

Section SessionFacts.

Import Game.

Lemma sameStabilizer_refl (e : Engine) : sameStabilizer e e.
Proof. repeat split. Qed.

Lemma sameStabilizer_trans (e1 e2 e3 : Engine) :
  sameStabilizer e1 e2 -> sameStabilizer e2 e3 -> sameStabilizer e1 e3.
Proof. unfold sameStabilizer. intuition congruence. Qed.

Lemma Inv_sameSession (e e' : Engine) : sameSession e e' -> Inv e -> Inv e'.
Proof.
  intros (Hs & Hm & Hb & Hd & Hh & Hc & Hr & Ha & Hg & Hcm & Hp) [].
  constructor; rewrite ?Hs, ?Hm, ?Hb, ?Hd, ?Hh, ?Hc, ?Hr, ?Ha, ?Hg, ?Hcm, ?Hp; assumption.
Qed.

Lemma Inv_constructed : Inv constructed.
Proof.
  constructor; cbn; try (intros [H | H]; discriminate); try lia.
  - apply TAROT_DECK_ids_NoDup.
  - constructor.
  - right. repeat split.
Qed.

Lemma tryGrab_exhausted (io : Inputs) (e : Engine) :
  MAX_DRAW_PER_SESSION <= sessionDrawnCount e ->
  tryGrab io e = mkOutcome [] e (Some tt).
Proof.
  intros H. unfold tryGrab, bind, get.
  apply Nat.leb_le in H. rewrite H. reflexivity.
Qed.

(** What a grab that finds a card does to the engine. *)
Lemma tryGrab_hit (io : Inputs) (e : Engine) (children : list TarotCardData)
    (i : nat) (c : TarotCardData) :
  sessionDrawnCount e < MAX_DRAW_PER_SESSION ->
  cardRing e = Some children -> rayHit io = Some i -> nth_error children i = Some c ->
  let e' := final (tryGrab io e) in
  state e' = GRABBING /\ activeCardData e' = Some c /\ isReversed e' = coin io /\
  deck e' = filter (fun d => negb (id d =? id c)) (deck e) /\
  cardRing e' = Some (deck e') /\ history e' = history e /\
  sessionDrawnCount e' = sessionDrawnCount e /\
  currentCardMesh e' = true.
Proof.
  intros Hq Hring Hhit Hnth. unfold tryGrab, bind, get.
  apply Nat.leb_gt in Hq. rewrite Hq, Hring, Hhit. cbn [bindOpt]. rewrite Hnth.
  cbn. repeat split.
Qed.

Lemma tryGrab_post (io : Inputs) (e : Engine) :
  Inv e -> state e = READY ->
  post (tryGrab io) e
    (fun l e' v => Inv e' /\ v = Some tt /\ l = [] /\ sameStabilizer e e'
                   /\ sessionDrawnCount e' = sessionDrawnCount e).
Proof.
  intros HI HS. unfold tryGrab. mrun; split_post.
  - (* a card is hit *)
    destruct HI. constructor; simpl; try assumption.
    + intros _. apply Nat.leb_gt. assumption.
    + apply cardIds_filter_NoDup. assumption.
    + intros i Hi Hin. apply (inv_disjoint0 i Hi).
      eapply cardIds_filter_In, Hin.
    + intros _. exists t. split; [reflexivity|]. split.
      * apply removed_id_absent.
      * intros Hin. apply (inv_disjoint0 _ Hin).
        destruct inv_ring0 as [Hr | (Hr & _)]; [| congruence].
        rewrite Heqo in Hr. inversion Hr; subst l.
        destruct (rayHit io) as [k |]; [| discriminate]. cbn in Heqo0.
        apply nth_error_In in Heqo0. unfold cardIds. now apply in_map.
    + now left.
    + intros [H | H]; discriminate.
  - (* no ring: excluded once the engine is READY *)
    exfalso. destruct HI. destruct inv_ring0 as [Hr | (_ & Hr & _)]; congruence.
Qed.

Lemma confirmCard_post (io : Inputs) (e : Engine) :
  Inv e -> state e = PREVIEW ->
  post (confirmCard io) e
    (fun l e' v => Inv e' /\ v = Some tt /\ l = [] /\ sameStabilizer e e'
                   /\ sessionDrawnCount e' = S (sessionDrawnCount e)).
Proof.
  intros HI HS. unfold confirmCard. mrun.
  - destruct HI. simpl in Heqo.
    destruct (inv_active0 (or_intror HS)) as (c & Hc & Hdeck & Hhist).
    rewrite Hc in Heqo. inversion Heqo; subst t.
    repeat split; simpl; try assumption; try reflexivity.
    + specialize (inv_drawing0 (or_intror HS)). lia.
    + intros [H | H]; discriminate.
    + lia.
    + constructor; assumption.
    + intros i [<- | Hi]; [exact Hdeck | now apply inv_disjoint0].
    + intros [H | H]; discriminate.
    + destruct inv_ring0 as [Hr | (_ & Hr & _)]; [now left | congruence].
    + intros _. apply inv_mesh0. now left.
  - exfalso. destruct HI. simpl in Heqo.
    destruct (inv_active0 (or_intror HS)) as (c & Hc & _). congruence.
Qed.

Lemma triggerDisintegrate_post (e : Engine) :
  Inv e ->
  post triggerDisintegrate e
    (fun l e' v => Inv e' /\ v = Some tt /\ l = [] /\ sameStabilizer e e'
                   /\ sessionDrawnCount e' = sessionDrawnCount e).
Proof.
  intros HI. unfold triggerDisintegrate. mrun; split_post.
  destruct HI. apply negb_false_iff, GameState_eqb_eq in Heqb.
  repeat split; simpl; try assumption; try reflexivity;
    try (intros [H | H]; discriminate).
  destruct inv_ring0 as [Hr | (_ & Hr & _)]; [now left | congruence].
Qed.

Lemma resetDeck_post (random : nat -> nat) (e : Engine) :
  Inv e ->
  post (resetDeck random) e
    (fun l e' v => Inv e' /\ v = Some tt /\ l = [DeckReset] /\ sameStabilizer e e'
                   /\ sessionDrawnCount e' = 0 /\ history e' = []
                   /\ state e' = READY
                   /\ deck e' = shuffle random TAROT_DECK).
Proof.
  intros HI. unfold resetDeck. mrun. split_post.
  destruct HI. constructor; simpl; try assumption;
    try (intros [H | H]; discriminate); try lia.
  - apply shuffle_cardIds_NoDup, TAROT_DECK_ids_NoDup.
  - constructor.
  - now left.
Qed.

Lemma init_post (random : nat -> nat) (e : Engine) :
  Inv e ->
  post (init random) e
    (fun l e' v => Inv e' /\ v = Some tt /\ l = [] /\ sameStabilizer e e'
                   /\ sessionDrawnCount e' = sessionDrawnCount e).
Proof.
  intros HI. unfold init. mrun. split_post.
  destruct HI. constructor; simpl; try assumption;
    try (intros [H | H]; discriminate).
  - now apply shuffle_cardIds_NoDup.
  - intros i Hi Hin. apply (inv_disjoint0 i Hi).
    unfold cardIds in *. eapply Permutation_in; [| exact Hin].
    apply Permutation_map, shuffle_Permutation.
  - now left.
Qed.

End SessionFacts.

Section StabilizerUpdateFacts.

Import Game.

Lemma verifyHold_post (gesture : Gesture) (now : Z) (e : Engine) :
  post (verifyHold gesture now) e
    (fun l e' v =>
       l = [] /\ sameSession e e'
       /\ currentGesture e' = currentGesture e
       /\ gestureCooldown e' = gestureCooldown e
       /\ pinchStartTime e' =
          (if Gesture_eqb gesture PINCH
           then Stabilizer.holdStart (pinchStartTime e) now else 0%Z)
       /\ fistStartTime e' =
          (if Gesture_eqb gesture FIST
           then Stabilizer.holdStart (fistStartTime e) now else 0%Z)
       /\ v = Some
            (match gesture with
             | PINCH =>
                 Stabilizer.effectiveGesture (currentGesture e) PINCH
                   Stabilizer.PINCH_REQUIRED_HOLD
                   (now - Stabilizer.holdStart (pinchStartTime e) now)
             | FIST =>
                 Stabilizer.effectiveGesture (currentGesture e) FIST
                   Stabilizer.FIST_REQUIRED_HOLD
                   (now - Stabilizer.holdStart (fistStartTime e) now)
             | _ => gesture
             end)).
Proof.
  unfold verifyHold.
  destruct gesture; cbn [Gesture_eqb]; mrun; split_post;
    try solve [unfold sameSession; simpl; repeat split].
  all: unfold Stabilizer.holdStart, Stabilizer.effectiveGesture; simpl in *;
    repeat match goal with
           | H : _ = true |- _ => rewrite H; clear H
           | H : _ = false |- _ => rewrite H; clear H
           end;
    try reflexivity.
  all: destruct (Gesture_eqb (currentGesture e) _) eqn:E; [| reflexivity];
    apply Gesture_eqb_eq in E; now rewrite E.
Qed.

End StabilizerUpdateFacts.

Section HandlerFacts.

Import Game.

Lemma onGestureEnter_post (gesture : Gesture) (io : Inputs) (e : Engine) :
  Inv e ->
  post (onGestureEnter gesture io) e
    (fun l e' v =>
       Inv e' /\ v = Some tt /\ sameStabilizer e e'
       /\ enterCount l = 1
       /\ (forall g, In (Entered g) l -> g = gesture)
       /\ quotaStep e e' l).
Proof.
  intros HI. unfold onGestureEnter. mrun.
  - (* PINCH in READY *)
    apply andb_true_iff in Heqb. destruct Heqb as [_ HS].
    apply GameState_eqb_eq in HS.
    mcall ltac:(apply tryGrab_post; assumption).
    intros (HI' & -> & -> & Hst & Hc). split_post.
    + intros g [H | []]. congruence.
    + right. split; [intros [H | []]; discriminate | lia].
  - (* FIST in PREVIEW *)
    apply GameState_eqb_eq in Heqb1.
    mcall ltac:(apply confirmCard_post; assumption).
    intros (HI' & -> & -> & Hst & Hc). split_post.
    + intros g [H | []]. congruence.
    + right. split; [intros [H | []]; discriminate | lia].
  - (* FIST in CONFIRMED *)
    mcall ltac:(apply triggerDisintegrate_post; assumption).
    intros (HI' & -> & -> & Hst & Hc). split_post.
    + intros g [H | []]. congruence.
    + right. split; [intros [H | []]; discriminate | lia].
  - (* FIST in READY with the quota used up *)
    mcall ltac:(apply resetDeck_post; assumption).
    intros (HI' & -> & -> & Hst & Hc & _). split_post.
    + intros g [H | [H | []]]; [congruence | discriminate].
    + left. split; [right; now left | assumption].
  - split_post.
    + intros g [H | []]. congruence.
    + right. split; [intros [H | []]; discriminate | lia].
  - split_post.
    + intros g [H | []]. congruence.
    + right. split; [intros [H | []]; discriminate | lia].
Qed.

Lemma handleGestureUpdate_post (gesture : Gesture) (io : Inputs) (e : Engine) :
  Inv e ->
  post (handleGestureUpdate gesture io) e
    (fun l e' v =>
       Inv e' /\ v = Some tt /\ quotaStep e e' l
       /\ gestureStep (Some (now io)) e e' l).
Proof.
  intros HI. unfold handleGestureUpdate.
  mstep. mcall ltac:(apply verifyHold_post).
  intros (-> & Hss & Hcur & Hcool & _ & _ & ->).
  assert (HI1 : Inv e') by (eapply Inv_sameSession; eassumption).
  destruct Hss as (_ & _ & _ & _ & _ & Hcount & _).
  set (processed := match gesture with PINCH => _ | FIST => _ | _ => gesture end).
  mrun.
  - (* the change is accepted *)
    apply andb_true_iff in Heqb. destruct Heqb as [Hne Hcd].
    apply negb_true_iff, Gesture_eqb_neq in Hne. apply Z.ltb_lt in Hcd.
    mcall ltac:(apply onGestureEnter_post;
                eapply Inv_sameSession; [| exact HI1];
                unfold sameSession; simpl; repeat split).
    intros (HI2 & -> & Hst & Hec & Hent & Hq). mrun.
    destruct Hst as (Hcg & _). simpl in Hcg.
    split_post.
    + eapply Inv_sameSession; [| exact HI2]. unfold sameSession; simpl; repeat split.
    + (* quota *)
      unfold quotaStep in *. simpl in *.
      destruct Hq as [[Hr Hz] | [Hr Hle]].
      * left. split; [| assumption]. rewrite !in_app_iff. simpl. tauto.
      * right. split; [| lia]. rewrite !in_app_iff. simpl.
        intros H. apply Hr. intuition discriminate.
    + left. simpl. rewrite Hcg. split; [congruence |]. split; [| split].
      * exists (now io). split; [reflexivity|]. split; [lia | reflexivity].
      * unfold enterCount in *. rewrite !filter_app, !length_app. simpl. lia.
      * intros g. rewrite !in_app_iff. simpl.
        intros H. apply Hent. intuition discriminate.
  - (* no change *)
    split_post.
    + right. simpl. split; [intuition discriminate | lia].
    + right. simpl. split_post; congruence.
Qed.

End HandlerFacts.

Section RunFacts.

Import Game.

Lemma quotaStep_quiet (e e' : Engine) :
  sessionDrawnCount e' = sessionDrawnCount e -> quotaStep e e' [].
Proof. intros H. right. split; [intros [] | lia]. Qed.

Lemma gestureStep_quiet (time : option Z) (e e' : Engine) (l : list Call) :
  sameStabilizer e e' -> enterCount l = 0 -> gestureStep time e e' l.
Proof. intros (H1 & H2 & _) H. right. split_post. Qed.

Lemma Inv_pushed (raw : Gesture) (e : Engine) :
  Inv e ->
  Inv (set_gestureBuffer (Stabilizer.pushGesture (gestureBuffer e) raw) e).
Proof.
  intros []. constructor; simpl; try assumption.
  now apply pushGesture_length.
Qed.

Ltac quiet :=
  first
    [ now apply quotaStep_quiet
    | apply gestureStep_quiet;
      [ first [ apply sameStabilizer_refl | assumption
              | unfold Game.sameStabilizer; simpl; repeat split ]
      | reflexivity ] ].

(** Every handler keeps the invariant, moves the drawn count only upwards
    unless it resets the deck, and changes the current gesture only as an
    accepted update does. *)
Lemma handler_post (ev : Event) (e : Engine) :
  Inv e ->
  post (handler ev) e
    (fun l e' v =>
       Inv e' /\ quotaStep e e' l /\ gestureStep (updateTime ev) e e' l).
Proof.
  intros HI. destruct ev as [random | mode | results io | button onCard io
                            | io | nearAnchor | | random];
    cbn [handler updateTime].
  - (* Init *)
    mcall ltac:(apply init_post; assumption).
    intros (HI' & _ & -> & Hst & Hc). split_post.
    + quiet.
    + quiet.
  - (* SelectMode *)
    mrun. split_post; try quiet.
    destruct HI. constructor; simpl; assumption.
  - (* HandResults *)
    unfold processHandResults. mrun.
    + split_post; quiet.
    + mcall ltac:(apply handleGestureUpdate_post, Inv_pushed; assumption).
      intros (HI' & _ & Hq & Hg). split_post.
    + split_post; try quiet. now apply Inv_pushed.
    + split_post; quiet.
    + mcall ltac:(apply handleGestureUpdate_post; assumption).
      intros (HI' & _ & Hq & Hg). split_post.
  - (* MouseDown *)
    unfold onMouseDown. mrun;
      try (mcall ltac:(apply handleGestureUpdate_post; assumption);
           intros (HI' & _ & Hq & Hg); split_post);
      split_post; try quiet.
  - (* MouseUp *)
    unfold onMouseUp. mrun.
    + mcall ltac:(apply handleGestureUpdate_post; assumption).
      intros (HI' & _ & Hq & Hg). split_post.
    + split_post; quiet.
  - (* Animate *)
    unfold updateCardTransform. mrun; split_post; try quiet.
    (* GRABBING, near the anchor: PREVIEW *)
    apply negb_false_iff in Heqb.
    destruct HI. constructor; simpl; try assumption.
    + intros _. apply inv_drawing0. now left.
    + intros _. apply inv_active0. now left.
    + destruct inv_ring0 as [Hr | (_ & Hr & _)]; [now left | congruence].
    + intros _. assumption.
  - (* Timeout *)
    mrun; split_post; try quiet.
    destruct HI. constructor; simpl; try assumption;
      try (intros [H | H]; discriminate).
    destruct inv_ring0 as [Hr | (_ & _ & Hr)]; [now left | congruence].
  - (* ResetDeck *)
    mcall ltac:(apply resetDeck_post; assumption).
    intros (HI' & _ & -> & Hst & Hc & _). split_post.
    + left. split; [now left | assumption].
    + quiet.
Qed.

Lemma Inv_step (e : Engine) (ev : Event) : Inv e -> Inv (step e ev).
Proof. intros HI. apply (handler_post ev e HI). Qed.

Lemma Inv_run (evs : list Event) (e : Engine) : Inv e -> Inv (run e evs).
Proof.
  revert e. induction evs as [| ev evs IH]; intros e HI; [exact HI|].
  apply IH, Inv_step, HI.
Qed.

Lemma reachable_Inv (e : Engine) : reachable e -> Inv e.
Proof. intros [evs ->]. apply Inv_run, Inv_constructed. Qed.

Lemma reachable_step (e : Engine) (ev : Event) : reachable e -> reachable (step e ev).
Proof.
  intros [evs ->]. exists (evs ++ [ev]). unfold run. now rewrite fold_left_app.
Qed.

End RunFacts.

Section QuotaAndCooldown.

Import Game.

(** C1. Through any sequence of events the drawn count stays between 0 and
    3; one event never lowers it unless that event resets the deck, and a
    reset sets it to exactly 0; and a grab attempted while the count is 3 or
    more returns at once and leaves the engine as it was. *)
Theorem sessionDrawnCount_quota (evs : list Event) :
  let e := run constructed evs in
  0 <= sessionDrawnCount e <= 3 /\
  (forall ev : Event,
      let r := handler ev e in
      (In DeckReset (calls r) /\ sessionDrawnCount (final r) = 0)
      \/ (~ In DeckReset (calls r)
          /\ sessionDrawnCount e <= sessionDrawnCount (final r))) /\
  (forall random : nat -> nat,
      sessionDrawnCount (final (resetDeck random e)) = 0) /\
  (forall io : Inputs,
      3 <= sessionDrawnCount e -> tryGrab io e = mkOutcome [] e (Some tt)).
Proof.
  intros e.
  assert (HI : Inv e) by (apply Inv_run, Inv_constructed).
  split; [| split; [| split]].
  - split; [lia | apply (inv_quota HI)].
  - intros ev r. apply (handler_post ev e HI).
  - intros random. apply (resetDeck_post random e HI).
  - intros io H. now apply tryGrab_exhausted.
Qed.

(** The times of accepted changes in a run lie past the cooldown the run
    starts with, and each lies more than 50 ms after every earlier one. *)
Lemma changeTimes_spaced (evs : list Event) (e : Engine) :
  Inv e ->
  Forall (fun t => (gestureCooldown e < t)%Z) (changeTimes e evs) /\
  StronglySorted (fun t t' => (t + 50 < t')%Z) (changeTimes e evs).
Proof.
  revert e. induction evs as [| ev evs IH]; intros e HI; cbn [changeTimes].
  - split; constructor.
  - destruct (handler_post ev e HI) as (HI' & _ & Hg).
    fold (step e ev) in HI', Hg.
    destruct (IH (step e ev) HI') as [Hall Hsorted].
    assert (Hkeep : gestureCooldown (step e ev) = gestureCooldown e ->
                    Forall (fun t => (gestureCooldown e < t)%Z)
                      (changeTimes (step e ev) evs) /\
                    StronglySorted (fun t t' => (t + 50 < t')%Z)
                      (changeTimes (step e ev) evs)).
    { intros Heq. rewrite Heq in Hall. now split. }
    destruct Hg as [(Hne & (now & Ht & Hcd & Hcool) & _) | (Heq & Hcool & _)].
    + rewrite Ht.
      destruct (Gesture_eqb (currentGesture e) (currentGesture (step e ev))) eqn:E.
      * apply Gesture_eqb_eq in E. congruence.
      * rewrite Hcool in Hall. split.
        -- constructor; [exact Hcd |].
           eapply Forall_impl; [| exact Hall]. cbv beta. intros t Ht'. lia.
        -- constructor; [exact Hsorted | exact Hall].
    + destruct (updateTime ev) as [t |]; [| now apply Hkeep].
      rewrite Heq, Gesture_eqb_refl. now apply Hkeep.
Qed.

(** C5. In any run the times at which the current gesture changes are more
    than 50 ms apart, each from every earlier one; and a handler calls
    [onGestureEnter] exactly once when it changes the current gesture and
    not at all when it does not. *)
Theorem gesture_change_cooldown (evs : list Event) :
  StronglySorted (fun t t' => (t + 50 < t')%Z) (changeTimes constructed evs) /\
  (forall ev : Event,
      let e := run constructed evs in
      let r := handler ev e in
      enterCount (calls r) =
      if Gesture_eqb (currentGesture e) (currentGesture (final r)) then 0 else 1).
Proof.
  split.
  - apply changeTimes_spaced, Inv_constructed.
  - intros ev e r.
    assert (HI : Inv e) by (apply Inv_run, Inv_constructed).
    destruct (handler_post ev e HI) as (_ & _ & Hg). fold r in Hg.
    destruct Hg as [(Hne & _ & Hc & _) | (Heq & _ & Hc)]; rewrite Hc.
    + destruct (Gesture_eqb _ _) eqn:E; [| reflexivity].
      apply Gesture_eqb_eq in E. congruence.
    + now rewrite Heq, Gesture_eqb_refl.
Qed.

End QuotaAndCooldown.

Section HoldFacts.

Import Game.

(** An update carrying a gesture whose hold has not elapsed, on an engine
    whose current gesture is NONE, calls only [onGestureHold] and leaves
    the current gesture NONE; the timer it leaves is 0 or not before the
    start of the stream. *)
Lemma pinch_update_held_back (io : Inputs) (t0 : Z) (e : Engine) :
  currentGesture e = NONE ->
  pinchStartTime e = 0%Z \/ (t0 <= pinchStartTime e)%Z ->
  (t0 <= now io < t0 + 80)%Z ->
  post (handleGestureUpdate PINCH io) e
    (fun l e' v =>
       l = [Held NONE] /\ currentGesture e' = NONE
       /\ (pinchStartTime e' = 0%Z \/ (t0 <= pinchStartTime e')%Z)).
Proof.
  intros Hcur Hps Hnow. unfold handleGestureUpdate.
  mstep. mcall ltac:(apply verifyHold_post).
  intros (-> & _ & Hcur' & _ & Hps' & _ & ->).
  cbn [Gesture_eqb] in Hps'.
  assert (Hheld : (now io - Stabilizer.holdStart (pinchStartTime e) (now io)
                   <? Stabilizer.PINCH_REQUIRED_HOLD)%Z = true).
  { apply Z.ltb_lt. unfold Stabilizer.holdStart, Stabilizer.PINCH_REQUIRED_HOLD.
    destruct (Z.eqb_spec (pinchStartTime e) 0); lia. }
  unfold Stabilizer.effectiveGesture. rewrite Hheld, Hcur. cbn [Gesture_eqb].
  rewrite Hcur in Hcur'.
  mstep. mstep. rewrite Hcur'. cbn [Gesture_eqb negb andb].
  mrun. rewrite Hcur'. split_post.
  rewrite Hps'. unfold Stabilizer.holdStart.
  destruct (Z.eqb_spec (pinchStartTime e) 0); [right; lia | destruct Hps; [contradiction | now right]].
Qed.

Lemma fist_update_held_back (io : Inputs) (t0 : Z) (e : Engine) :
  currentGesture e = NONE ->
  fistStartTime e = 0%Z \/ (t0 <= fistStartTime e)%Z ->
  (t0 <= now io < t0 + 40)%Z ->
  post (handleGestureUpdate FIST io) e
    (fun l e' v =>
       l = [Held NONE] /\ currentGesture e' = NONE
       /\ (fistStartTime e' = 0%Z \/ (t0 <= fistStartTime e')%Z)).
Proof.
  intros Hcur Hps Hnow. unfold handleGestureUpdate.
  mstep. mcall ltac:(apply verifyHold_post).
  intros (-> & _ & Hcur' & _ & _ & Hps' & ->).
  cbn [Gesture_eqb] in Hps'.
  assert (Hheld : (now io - Stabilizer.holdStart (fistStartTime e) (now io)
                   <? Stabilizer.FIST_REQUIRED_HOLD)%Z = true).
  { apply Z.ltb_lt. unfold Stabilizer.holdStart, Stabilizer.FIST_REQUIRED_HOLD.
    destruct (Z.eqb_spec (fistStartTime e) 0); lia. }
  unfold Stabilizer.effectiveGesture. rewrite Hheld, Hcur. cbn [Gesture_eqb].
  rewrite Hcur in Hcur'.
  mstep. mstep. rewrite Hcur'. cbn [Gesture_eqb negb andb].
  mrun. rewrite Hcur'. split_post.
  rewrite Hps'. unfold Stabilizer.holdStart.
  destruct (Z.eqb_spec (fistStartTime e) 0); [right; lia | destruct Hps; [contradiction | now right]].
Qed.

Lemma pinch_stream_held_back (ios : list Inputs) (t0 : Z) (e : Engine) :
  currentGesture e = NONE ->
  pinchStartTime e = 0%Z \/ (t0 <= pinchStartTime e)%Z ->
  (forall io, In io ios -> (t0 <= now io < t0 + 80)%Z) ->
  (forall c, In c (fst (updateStream PINCH ios e)) -> c = Held NONE) /\
  currentGesture (snd (updateStream PINCH ios e)) = NONE.
Proof.
  revert e. induction ios as [| io ios IH]; intros e Hcur Hps Hall; cbn [updateStream].
  - split; [intros c [] | exact Hcur].
  - destruct (pinch_update_held_back io t0 e Hcur Hps (Hall io (or_introl eq_refl)))
      as (Hl & Hcur' & Hps').
    specialize (IH (final (handleGestureUpdate PINCH io e)) Hcur' Hps'
                  (fun io' H => Hall io' (or_intror H))).
    destruct (updateStream PINCH ios _) as [l e']. cbn [fst snd] in *.
    destruct IH as [IHl IHc]. split; [| exact IHc].
    intros c Hc. apply in_app_or in Hc. destruct Hc as [Hc | Hc]; [| now apply IHl].
    rewrite Hl in Hc. destruct Hc as [<- | []]. reflexivity.
Qed.

Lemma fist_stream_held_back (ios : list Inputs) (t0 : Z) (e : Engine) :
  currentGesture e = NONE ->
  fistStartTime e = 0%Z \/ (t0 <= fistStartTime e)%Z ->
  (forall io, In io ios -> (t0 <= now io < t0 + 40)%Z) ->
  (forall c, In c (fst (updateStream FIST ios e)) -> c = Held NONE) /\
  currentGesture (snd (updateStream FIST ios e)) = NONE.
Proof.
  revert e. induction ios as [| io ios IH]; intros e Hcur Hps Hall; cbn [updateStream].
  - split; [intros c [] | exact Hcur].
  - destruct (fist_update_held_back io t0 e Hcur Hps (Hall io (or_introl eq_refl)))
      as (Hl & Hcur' & Hps').
    specialize (IH (final (handleGestureUpdate FIST io e)) Hcur' Hps'
                  (fun io' H => Hall io' (or_intror H))).
    destruct (updateStream FIST ios _) as [l e']. cbn [fst snd] in *.
    destruct IH as [IHl IHc]. split; [| exact IHc].
    intros c Hc. apply in_app_or in Hc. destruct Hc as [Hc | Hc]; [| now apply IHl].
    rewrite Hl in Hc. destruct Hc as [<- | []]. reflexivity.
Qed.

End HoldFacts.

Section DrawFacts.

Import Game.

(** A statement about the engine a handler leaves, read as a
    postcondition. *)
Ltac as_post :=
  match goal with
  | |- Game.final (?m ?e) = ?X => change (Game.post m e (fun _ e' _ => e' = X))
  end.

Ltac off_branch H :=
  solve [ reflexivity
        | exfalso; rewrite ?H in *; simpl in *; congruence ].

Lemma enter_PINCH_in_READY (io : Inputs) (e : Engine) :
  state e = READY ->
  final (onGestureEnter PINCH io e) = final (tryGrab io e).
Proof.
  intros HS. unfold onGestureEnter, bind, emit, get.
  rewrite HS. cbn [Gesture_eqb GameState_eqb andb].
  now destruct (tryGrab io e) as [l e' v].
Qed.

Lemma grabbed_reaches_PREVIEW (e : Engine) :
  state e = GRABBING -> currentCardMesh e = true ->
  final (updateCardTransform true e) = set_state PREVIEW e.
Proof.
  intros HS HM. as_post. unfold updateCardTransform.
  mrun; try reflexivity; exfalso; try congruence.
  rewrite HM in *. discriminate.
Qed.

Lemma confirmCard_active (io : Inputs) (e : Engine) (c : TarotCardData) :
  activeCardData e = Some c ->
  final (confirmCard io e) =
  set_history
    (History.mkHistory (name_zh c) (isReversed e) (stamp io) c :: history e)
    (set_state CONFIRMED (set_sessionDrawnCount (S (sessionDrawnCount e)) e)).
Proof.
  intros HA. as_post. unfold confirmCard. mrun; simpl in *.
  - rewrite HA in *. now inversion Heqo.
  - congruence.
Qed.

Lemma enter_FIST_in_PREVIEW (io : Inputs) (e : Engine) :
  state e = PREVIEW ->
  final (onGestureEnter FIST io e) = final (confirmCard io e).
Proof.
  intros HS. unfold onGestureEnter, bind, emit, get.
  rewrite HS. cbn [Gesture_eqb GameState_eqb andb].
  now destruct (confirmCard io e) as [l e' v].
Qed.

Lemma enter_FIST_in_CONFIRMED (io : Inputs) (e : Engine) :
  state e = CONFIRMED ->
  final (onGestureEnter FIST io e) =
  set_pendingTimeouts (S (pendingTimeouts e))
    (set_currentCardMesh false (set_state DISINTEGRATING e)).
Proof.
  intros HS. as_post. unfold onGestureEnter, triggerDisintegrate.
  mrun; off_branch HS.
Qed.

Lemma enter_FIST_resets (io : Inputs) (e : Engine) :
  state e = READY -> MAX_DRAW_PER_SESSION <= sessionDrawnCount e ->
  post (onGestureEnter FIST io) e
    (fun l e' v =>
       l = [Entered FIST; DeckReset] /\ v = Some tt /\
       e' = set_state READY
              (set_currentCardMesh false
                 (set_cardRing (Some (shuffle (random io) TAROT_DECK))
                    (set_sessionDrawnCount 0
                       (set_history []
                          (set_deck (shuffle (random io) TAROT_DECK) e)))))).
Proof.
  intros HS HQ. apply Nat.leb_le in HQ.
  unfold onGestureEnter, resetDeck. mrun; try off_branch HS.
  repeat split.
Qed.

Lemma timeout_pending (e : Engine) (n : nat) :
  pendingTimeouts e = S n ->
  step e Timeout = set_state READY (set_pendingTimeouts n e).
Proof.
  intros HP. unfold step. as_post. cbn [handler]. mrun; congruence.
Qed.

(** One draw from READY with quota left and a card under the pointer. *)
Lemma drawOnce_spec (grab confirm dismiss : Inputs) (e : Engine)
    (i : nat) (c : TarotCardData) :
  Inv e -> state e = READY -> sessionDrawnCount e < MAX_DRAW_PER_SESSION ->
  rayHit grab = Some i -> nth_error (deck e) i = Some c ->
  let e' := drawOnce grab confirm dismiss e in
  state e' = READY /\
  sessionDrawnCount e' = S (sessionDrawnCount e) /\
  history e' =
    History.mkHistory (name_zh c) (coin grab) (stamp confirm) c :: history e /\
  deck e' = filter (fun d => negb (id d =? id c)) (deck e) /\
  cardRing e' = Some (deck e') /\
  length (deck e) = S (length (deck e')) /\
  ~ In (id c) (cardIds (deck e')).
Proof.
  intros HI HS HQ Hhit Hnth.
  assert (Hring : cardRing e = Some (deck e)).
  { destruct (inv_ring HI) as [H | (_ & H & _)]; [exact H | congruence]. }
  unfold drawOnce.
  rewrite (enter_PINCH_in_READY grab e HS).
  destruct (tryGrab_hit grab e (deck e) i c HQ Hring Hhit Hnth)
    as (S1 & A1 & R1 & D1 & G1 & H1 & C1 & M1).
  set (e1 := final (tryGrab grab e)) in *.
  rewrite (grabbed_reaches_PREVIEW e1 S1 M1).
  rewrite (enter_FIST_in_PREVIEW confirm (set_state PREVIEW e1) eq_refl).
  rewrite (confirmCard_active confirm (set_state PREVIEW e1) c A1).
  rewrite enter_FIST_in_CONFIRMED by reflexivity.
  rewrite (timeout_pending _ (pendingTimeouts e1)) by reflexivity.
  simpl. rewrite R1, H1, D1, C1, G1, D1.
  repeat split.
  - apply removed_exactly_one; [apply (inv_deck_nodup HI) |].
    eapply nth_error_In, Hnth.
  - apply removed_id_absent.
Qed.

End DrawFacts.

Section DrawClaims.

Import Game Samples.

Lemma Inv_drawOnce (grab confirm dismiss : Inputs) (e : Engine) :
  Inv e -> Inv (drawOnce grab confirm dismiss e).
Proof.
  intros HI. unfold drawOnce.
  apply Inv_step.
  apply (onGestureEnter_post FIST dismiss).
  apply (onGestureEnter_post FIST confirm).
  apply (handler_post (Animate true)).
  apply (onGestureEnter_post PINCH grab), HI.
Qed.

Lemma count_occ_absent_cons (i : nat) (l : list nat) :
  ~ In i l -> count_occ Nat.eq_dec (i :: l) i = 1.
Proof.
  intros H. cbn. destruct (Nat.eq_dec i i) as [_ | Hne]; [| contradiction].
  f_equal. now apply count_occ_not_In.
Qed.

(** C6. A grab that finds a card under the pointer takes exactly that card
    out of the deck, by its identity: the card was in the deck, is not in it
    afterwards, and the deck is shorter by exactly one; the history is
    untouched by the grab.  The confirmation puts one entry for the active
    card at the head of the history, before all older entries, and that
    card's identity then occurs exactly once in the history and not in the
    deck.  In every state that a run can reach no identity occurs twice in
    the history, and no card of the history is in the deck. *)
Theorem draw_removes_card_and_logs_once :
  (forall (e : Engine) (io : Inputs) (children : list TarotCardData)
          (i : nat) (c : TarotCardData),
      reachable e -> sessionDrawnCount e < 3 ->
      cardRing e = Some children -> rayHit io = Some i ->
      nth_error children i = Some c ->
      let e' := final (tryGrab io e) in
      state e' = GRABBING /\ activeCardData e' = Some c /\
      In c (deck e) /\
      deck e' = filter (fun d => negb (id d =? id c)) (deck e) /\
      ~ In c (deck e') /\ ~ In (id c) (cardIds (deck e')) /\
      length (deck e) = S (length (deck e')) /\
      history e' = history e) /\
  (forall (e : Engine) (io : Inputs) (c : TarotCardData),
      reachable e -> state e = PREVIEW -> activeCardData e = Some c ->
      let e' := final (confirmCard io e) in
      history e' =
        History.mkHistory (name_zh c) (isReversed e) (stamp io) c :: history e /\
      count_occ Nat.eq_dec (historyIds (history e')) (id c) = 1 /\
      ~ In (id c) (cardIds (deck e')) /\
      deck e' = deck e) /\
  (forall e : Engine,
      reachable e ->
      NoDup (historyIds (history e)) /\
      forall h, In h (history e) ->
                ~ In (id (History.cardData h)) (cardIds (deck e))).
Proof.
  split; [| split].
  - intros e io children i c Hr HQ Hring Hhit Hnth e'.
    apply reachable_Inv in Hr.
    assert (Hdeck : children = deck e).
    { destruct (inv_ring Hr) as [H | (H & _)]; congruence. }
    subst children.
    destruct (tryGrab_hit io e (deck e) i c HQ Hring Hhit Hnth)
      as (S1 & A1 & _ & D1 & _ & H1 & _).
    fold e' in S1, A1, D1, H1.
    assert (Hin : In c (deck e)) by (eapply nth_error_In, Hnth).
    repeat split; try assumption; rewrite D1.
    + apply removed_card_absent.
    + apply removed_id_absent.
    + apply removed_exactly_one; [apply (inv_deck_nodup Hr) | exact Hin].
  - intros e io c Hr HS HA e'.
    apply reachable_Inv in Hr.
    destruct (inv_active Hr (or_intror HS)) as (c' & HA' & Hdeck & Hhist).
    assert (c' = c) by congruence. subst c'.
    subst e'. rewrite (confirmCard_active io e c HA). simpl.
    repeat split; try assumption.
    now apply count_occ_absent_cons.
  - intros e Hr. apply reachable_Inv in Hr. split.
    + apply (inv_history_nodup Hr).
    + intros h Hh. apply (inv_disjoint Hr).
      unfold historyIds. now apply (in_map (fun h => id (History.cardData h))).
Qed.

Lemma freshSession_reachable : reachable freshSession.
Proof. now exists [Init (fun i => 7 * i + 3)]. Qed.

Lemma draw_removes_card_and_logs_once_witness :
  let c := mkCard 2 "女祭司" "The High Priestess" in
  let e' := final (tryGrab (ioAt 1080 (Some 5)) freshSession) in
  state e' = GRABBING /\ activeCardData e' = Some c /\
  In c (deck freshSession) /\
  deck e' = filter (fun d => negb (id d =? id c)) (deck freshSession) /\
  ~ In c (deck e') /\ ~ In (id c) (cardIds (deck e')) /\
  length (deck freshSession) = S (length (deck e')) /\
  history e' = history freshSession.
Proof.
  apply (proj1 draw_removes_card_and_logs_once freshSession
           (ioAt 1080 (Some 5)) (deck freshSession) 5).
  - exact freshSession_reachable.
  - vm_compute. lia.
  - reflexivity.
  - reflexivity.
  - reflexivity.
Defined.

(** C8, with the deck the card table has.  From a fresh session, whose deck
    holds the 31 cards of the table, three draws in a row, each a grab of
    the ring child under the pointer that is then confirmed and let go,
    leave the drawn count at 3, three entries in the history with the
    latest draw first, the three cards distinct, and 28 cards in the deck;
    a FIST that then enters in READY resets the deck: 31 cards again, an
    empty history and a drawn count of 0. *)
Theorem three_draws_then_reset
    (random : nat -> nat)
    (grab1 confirm1 dismiss1 grab2 confirm2 dismiss2
     grab3 confirm3 dismiss3 again : Inputs)
    (i1 i2 i3 : nat) :
  rayHit grab1 = Some i1 -> rayHit grab2 = Some i2 -> rayHit grab3 = Some i3 ->
  i1 < 31 -> i2 < 30 -> i3 < 29 ->
  let e0 := final (init random constructed) in
  let e1 := drawOnce grab1 confirm1 dismiss1 e0 in
  let e2 := drawOnce grab2 confirm2 dismiss2 e1 in
  let e3 := drawOnce grab3 confirm3 dismiss3 e2 in
  let e4 := final (onGestureEnter FIST again e3) in
  (state e0 = READY /\ length (deck e0) = length TAROT_DECK
   /\ length TAROT_DECK = 31) /\
  (state e3 = READY /\ sessionDrawnCount e3 = 3 /\ length (history e3) = 3
   /\ length (deck e3) = 28) /\
  (exists c1 c2 c3 : TarotCardData,
      nth_error (deck e0) i1 = Some c1 /\ nth_error (deck e1) i2 = Some c2
      /\ nth_error (deck e2) i3 = Some c3
      /\ map History.cardData (history e3) = [c3; c2; c1]
      /\ NoDup [id c3; id c2; id c1]) /\
  (In DeckReset (calls (onGestureEnter FIST again e3))
   /\ state e4 = READY /\ length (deck e4) = 31 /\ history e4 = []
   /\ sessionDrawnCount e4 = 0).
Proof.
  intros H1 H2 H3 L1 L2 L3 e0 e1 e2 e3 e4.
  assert (I0 : Inv e0) by (apply (init_post random constructed Inv_constructed)).
  assert (S0 : state e0 = READY) by reflexivity.
  assert (D0 : length (deck e0) = 31) by (apply (shuffle_length random TAROT_DECK)).
  assert (C0 : sessionDrawnCount e0 = 0) by reflexivity.
  assert (T0 : history e0 = []) by reflexivity.
  destruct (nth_error (deck e0) i1) as [c1 |] eqn:N1;
    [| apply nth_error_None in N1; lia].
  destruct (drawOnce_spec grab1 confirm1 dismiss1 e0 i1 c1 I0 S0
              ltac:(rewrite C0; unfold MAX_DRAW_PER_SESSION; lia) H1 N1)
    as (S1 & C1 & T1 & _ & _ & D1 & _).
  fold e1 in S1, C1, T1, D1.
  assert (I1 : Inv e1) by (apply Inv_drawOnce, I0).
  destruct (nth_error (deck e1) i2) as [c2 |] eqn:N2;
    [| apply nth_error_None in N2; lia].
  destruct (drawOnce_spec grab2 confirm2 dismiss2 e1 i2 c2 I1 S1
              ltac:(rewrite C1, C0; unfold MAX_DRAW_PER_SESSION; lia) H2 N2)
    as (S2 & C2 & T2 & _ & _ & D2 & _).
  fold e2 in S2, C2, T2, D2.
  assert (I2 : Inv e2) by (apply Inv_drawOnce, I1).
  destruct (nth_error (deck e2) i3) as [c3 |] eqn:N3;
    [| apply nth_error_None in N3; lia].
  destruct (drawOnce_spec grab3 confirm3 dismiss3 e2 i3 c3 I2 S2
              ltac:(rewrite C2, C1, C0; unfold MAX_DRAW_PER_SESSION; lia) H3 N3)
    as (S3 & C3 & T3 & _ & _ & D3 & _).
  fold e3 in S3, C3, T3, D3.
  assert (I3 : Inv e3) by (apply Inv_drawOnce, I2).
  assert (Q3 : sessionDrawnCount e3 = 3) by lia.
  destruct (enter_FIST_resets again e3 S3
              ltac:(rewrite Q3; unfold MAX_DRAW_PER_SESSION; lia))
    as (Hcalls & _ & Hfinal).
  fold e4 in Hfinal.
  split; [| split; [| split]].
  - repeat split; assumption.
  - repeat split; try assumption; try lia.
    rewrite T3, T2, T1, T0. reflexivity.
  - exists c1, c2, c3. repeat split.
    + rewrite T3, T2, T1, T0. reflexivity.
    + pose proof (inv_history_nodup I3) as Hnd.
      rewrite T3, T2, T1, T0 in Hnd. exact Hnd.
  - rewrite Hcalls, Hfinal. simpl. repeat split.
    + right. now left.
    + apply shuffle_length.
Qed.

Lemma three_draws_then_reset_witness :
  let io := ioAt 1000 (Some 5) in
  let e0 := final (init (fun i => 7 * i + 3) constructed) in
  let e1 := drawOnce io io io e0 in
  let e2 := drawOnce io io io e1 in
  let e3 := drawOnce io io io e2 in
  let e4 := final (onGestureEnter FIST io e3) in
  (state e0 = READY /\ length (deck e0) = length TAROT_DECK
   /\ length TAROT_DECK = 31) /\
  (state e3 = READY /\ sessionDrawnCount e3 = 3 /\ length (history e3) = 3
   /\ length (deck e3) = 28) /\
  (exists c1 c2 c3 : TarotCardData,
      nth_error (deck e0) 5 = Some c1 /\ nth_error (deck e1) 5 = Some c2
      /\ nth_error (deck e2) 5 = Some c3
      /\ map History.cardData (history e3) = [c3; c2; c1]
      /\ NoDup [id c3; id c2; id c1]) /\
  (In DeckReset (calls (onGestureEnter FIST io e3))
   /\ state e4 = READY /\ length (deck e4) = 31 /\ history e4 = []
   /\ sessionDrawnCount e4 = 0).
Proof.
  apply (three_draws_then_reset (fun i => 7 * i + 3)
           (ioAt 1000 (Some 5)) (ioAt 1000 (Some 5)) (ioAt 1000 (Some 5))
           (ioAt 1000 (Some 5)) (ioAt 1000 (Some 5)) (ioAt 1000 (Some 5))
           (ioAt 1000 (Some 5)) (ioAt 1000 (Some 5)) (ioAt 1000 (Some 5))
           (ioAt 1000 (Some 5)) 5 5 5);
    solve [reflexivity | lia].
Defined.

(** The scenario run by hand, frame by frame: where the claim expects a
    deck of 32 cards, 29 after three draws and 32 again after the reset,
    the engine holds 31, 28 and 31. *)
Lemma three_draws_deck_sizes :
  (state freshSession = READY /\ length (deck freshSession) = 31) /\
  (state afterThreeDraws = READY /\ sessionDrawnCount afterThreeDraws = 3
   /\ length (history afterThreeDraws) = 3
   /\ length (deck afterThreeDraws) = 28) /\
  (state afterReset = READY /\ sessionDrawnCount afterReset = 0
   /\ history afterReset = [] /\ length (deck afterReset) = 31) /\
  (length (deck freshSession) <> 32 /\ length (deck afterThreeDraws) <> 29
   /\ length (deck afterReset) <> 32).
Proof.
  assert (H0 : length (deck freshSession) = 31) by (vm_compute; reflexivity).
  assert (H3 : length (deck afterThreeDraws) = 28) by (vm_compute; reflexivity).
  assert (H4 : length (deck afterReset) = 31) by (vm_compute; reflexivity).
  repeat split; try (vm_compute; reflexivity); lia.
Qed.

End DrawClaims.

(** ** The claims on sample inputs *)

Section SampleRuns.

Import Game Samples.

Example samples_classified :
  Classifier.detectGestureRaw openHand = Some OPEN /\
  Classifier.detectGestureRaw pinchHand = Some PINCH /\
  Classifier.detectGestureRaw fistHand = Some FIST /\
  Classifier.detectGestureRaw (firstn 20 openHand) = None /\
  Classifier.detectGestureRaw (repeat Classifier.origin 21) = Some PINCH.
Proof. repeat split; vm_compute; reflexivity. Qed.

(** [Math.hypot] on some arguments: exact on a 3-4-5 triangle and along
    an axis, finite where a square would overflow, infinity before NaN,
    and off the plain formula by one place at (0.01, 0.01). *)
Example hypot_samples :
  Classifier.hypot 3 4 = 5%float /\
  Classifier.hypot (-0.525) 0 = 0.525%float /\
  Classifier.hypot 0 0 = 0%float /\
  PrimFloat.ltb (Classifier.hypot 1e200 1e200) infinity = true /\
  Classifier.hypot nan infinity = infinity /\
  PrimFloat.is_nan (Classifier.hypot nan 1) = true /\
  PrimFloat.eqb (Classifier.hypot 0.01 0.01)
    (PrimFloat.sqrt (0.01 * 0.01 + 0.01 * 0.01)) = false.
Proof. repeat split; vm_compute; reflexivity. Qed.

Example majority_and_ties :
  Stabilizer.getStableGesture [PINCH; PINCH; PINCH; FIST] = Some PINCH /\
  Stabilizer.getStableGesture [PINCH; PINCH; FIST; FIST] = Some FIST /\
  Stabilizer.getStableGesture [FIST; PINCH; PINCH; FIST] = Some PINCH /\
  Stabilizer.getStableGesture [OPEN; NONE; PINCH; FIST] = Some FIST /\
  Stabilizer.getStableGesture [] = None /\
  fold_left Stabilizer.pushGesture [NONE; OPEN; PINCH; FIST; OPEN; OPEN] []
  = [PINCH; FIST; OPEN; OPEN].
Proof. repeat split. Qed.

(** A PINCH held for 79 ms is never entered; at 80 ms it is. *)
Example pinch_hold_is_tight :
  fst (updateStream PINCH shortPinch freshSession)
  = [Held NONE; Held NONE; Held NONE] /\
  fst (updateStream PINCH (shortPinch ++ [ioAt 1080 (Some 0)]) freshSession)
  = [Held NONE; Held NONE; Held NONE; Entered PINCH; Held PINCH] /\
  state (snd (updateStream PINCH (shortPinch ++ [ioAt 1080 (Some 0)]) freshSession))
  = GRABBING.
Proof. repeat split; vm_compute; reflexivity. Qed.

(** The frame-by-frame session: its accepted changes and its history. *)
Example sample_session_trace :
  changeTimes freshSession (drawEvents 1000 5)
  = [1080; 1240; 1320; 1440; 1560; 1640]%Z /\
  historyIds (history afterThreeDraws) = [16; 63; 2] /\
  length (gestureBuffer afterThreeDraws) = 4.
Proof. repeat split; vm_compute; reflexivity. Qed.

(** With the camera where [setupScene] puts it, all forty candidates lie
    in the ring's band: the search runs out and reports the flag. *)
Example scene_camera_runs_out :
  let r := Resolver.resolveConfirmedSafety
             (Resolver.mkCamera sceneCameraPosition Resolver.CAMERA_NEAR)
             Resolver.engineRing sceneForward sceneUp in
  Resolver.pushCount r = 40 /\ Resolver.intersected r = true /\
  PrimFloat.eqb (Resolver.actualDist r) (Resolver.distanceAfter 40) = true /\
  PrimFloat.ltb 4.5 (Resolver.actualDist r) = true.
Proof. repeat split; vm_compute; reflexivity. Qed.

(** A camera far above the ring is clear at the base distance. *)
Example high_camera_keeps_base :
  let r := Resolver.resolveConfirmedSafety
             (Resolver.mkCamera (Resolver.mkVector3 0 10 18) Resolver.CAMERA_NEAR)
             Resolver.engineRing sceneForward sceneUp in
  Resolver.pushCount r = 0 /\ Resolver.intersected r = false /\
  PrimFloat.eqb (Resolver.actualDist r) 8.5 = true.
Proof. repeat split; vm_compute; reflexivity. Qed.

Lemma sessionDrawnCount_quota_witness :
  tryGrab (ioAt 5000 (Some 0)) (run constructed threeDrawsRun)
  = mkOutcome [] (run constructed threeDrawsRun) (Some tt).
Proof.
  apply (proj2 (proj2 (proj2 (sessionDrawnCount_quota threeDrawsRun)))).
  vm_compute. lia.
Defined.

Lemma resolveConfirmedSafety_floor_and_cap_witness :
  let camera := Resolver.mkCamera sceneCameraPosition Resolver.CAMERA_NEAR in
  let r := Resolver.resolveConfirmedSafety camera Resolver.engineRing
             sceneForward sceneUp in
  Resolver.pushCount r = 40 /\
  Resolver.targetPosition r
  = Resolver.candidate camera sceneForward sceneUp (Resolver.distanceAfter 39).
Proof.
  apply (proj2 (proj2 (proj2
           (resolveConfirmedSafety_floor_and_cap sceneCameraPosition
              sceneForward sceneUp Resolver.engineRing)))).
  vm_compute. reflexivity.
Defined.

End SampleRuns.

(** * Further properties *)

(** ** Classifier: malformed frames and depth *)

Section ClassifierMore.

Import Classifier Lifecycle.
Local Open Scope float_scope.

Lemma detectGestureRaw_needs_pinky_tip (frame : list Landmark) :
  nth_error frame 20 = None -> detectGestureRaw frame = None.
Proof.
  intros H. unfold detectGestureRaw. rewrite H.
  repeat match goal with
         | |- context [nth_error frame ?i] =>
             match i with
             | 20%nat => fail 1
             | _ => destruct (nth_error frame i)
             end
         end; reflexivity.
Qed.

Lemma detectGestureRaw_raises_iff_short_aux (frame : list Landmark) :
  detectGestureRaw frame = None -> (length frame < 21)%nat.
Proof.
  intros H. destruct (Nat.lt_ge_cases (length frame) 21) as [Hlt | Hge]; [exact Hlt|].
  rewrite (detectGestureRaw_unfold frame Hge) in H. discriminate.
Qed.

(** The classifier raises exactly on the frames that lack one of the 21
    points: it reads point 20 on every path, and no point beyond it. *)
Theorem detectGestureRaw_raises_iff_short (frame : list Landmark) :
  detectGestureRaw frame = None <-> (length frame < 21)%nat.
Proof.
  split.
  - apply detectGestureRaw_raises_iff_short_aux.
  - intros H. apply detectGestureRaw_needs_pinky_tip.
    apply nth_error_None. lia.
Qed.

Lemma planar_point (frame : list Landmark) (i : nat) :
  point (map planar frame) i = planar (point frame i).
Proof.
  unfold point. change origin with (planar origin) at 1. apply map_nth.
Qed.

(** The classification is planar: the depth coordinates of a frame have no
    part in it. *)
Theorem detectGestureRaw_ignores_depth (frame : list Landmark) :
  detectGestureRaw (map planar frame) = detectGestureRaw frame.
Proof.
  destruct (Nat.lt_ge_cases (length frame) 21) as [Hlt | Hge].
  - rewrite !detectGestureRaw_needs_pinky_tip; try reflexivity;
      apply nth_error_None; rewrite ?length_map; lia.
  - rewrite (detectGestureRaw_unfold frame Hge).
    rewrite (detectGestureRaw_unfold (map planar frame)) by (rewrite length_map; exact Hge).
    unfold wristDistance. rewrite !planar_point. reflexivity.
Qed.

End ClassifierMore.

(** ** Resolver: the first clear candidate *)

Section ResolverMore.

Import Resolver.
Local Open Scope float_scope.

(** The search tries the distances 8.5, 8.4, ... in turn and returns the
    first whose candidate is clear of the ring, with the number of pushes it
    took; a pose that is clear at the base distance keeps the base
    distance. *)
Theorem resolveConfirmedSafety_first_clear
    (cameraPosition camForward camUp : Vector3) (ring : Ring) (k : nat) :
  let camera := mkCamera cameraPosition CAMERA_NEAR in
  (k < 40)%nat ->
  (forall j, (j < k)%nat ->
     checkIntersectionWithCarousel ring
       (candidate camera camForward camUp (distanceAfter j)) = true) ->
  checkIntersectionWithCarousel ring
    (candidate camera camForward camUp (distanceAfter k)) = false ->
  resolveConfirmedSafety camera ring camForward camUp
  = mkPlacement (candidate camera camForward camUp (distanceAfter k))
      k false (distanceAfter k).
Proof.
  intros camera Hk Hbefore Hclear.
  destruct (resolveConfirmedSafety_result cameraPosition camForward camUp ring)
    as [(j & Hj & Hall & Hsafe & Hr) | (Hall & _)].
  - fold camera in Hr, Hall, Hsafe.
    destruct (Nat.lt_trichotomy j k) as [Hlt | [Heq | Hgt]].
    + rewrite (Hbefore j Hlt) in Hsafe. discriminate.
    + subst j. exact Hr.
    + rewrite (Hall k Hgt) in Hclear. discriminate.
  - fold camera in Hall. rewrite (Hall k) in Hclear by exact Hk. discriminate.
Qed.

Lemma resolveConfirmedSafety_first_clear_witness :
  let camera := mkCamera (mkVector3 0 10 18) CAMERA_NEAR in
  resolveConfirmedSafety camera engineRing
    (mkVector3 0 0 (-1)) (mkVector3 0 1 0)
  = mkPlacement
      (candidate camera (mkVector3 0 0 (-1)) (mkVector3 0 1 0) (distanceAfter 0))
      0 false (distanceAfter 0).
Proof.
  apply (resolveConfirmedSafety_first_clear (mkVector3 0 10 18)
           (mkVector3 0 0 (-1)) (mkVector3 0 1 0) engineRing 0).
  - lia.
  - intros j Hj. lia.
  - vm_compute. reflexivity.
Defined.

End ResolverMore.

(** ** Shuffle *)

Section ShuffleMore.

Import Game.

(** [shuffleDeck] rearranges the deck and touches nothing else: the same
    cards, as often; a deck of at most one card stays as it is. *)
Theorem shuffleDeck_rearranges (random : nat -> nat) (e : Engine) :
  let r := shuffleDeck random e in
  value r = Some tt /\ calls r = [] /\
  Permutation (deck (final r)) (deck e) /\
  length (deck (final r)) = length (deck e) /\
  (length (deck e) <= 1 -> deck (final r) = deck e) /\
  final r = set_deck (deck (final r)) e.
Proof.
  cbv zeta. unfold shuffleDeck, modify. cbn [value calls final].
  repeat split.
  - apply shuffle_Permutation.
  - apply shuffle_length.
  - intros H. unfold shuffle.
    replace (length (deck e) - 1) with 0 by lia. reflexivity.
Qed.

End ShuffleMore.

(** ** Updates that change nothing *)

Section QuietUpdates.

Import Game Lifecycle.

(** An update that carries the gesture already current calls only
    [onGestureHold]: the gesture persists whatever its hold timer says,
    there is no enter call, and session and cooldown stay as they are. *)
Theorem handleGestureUpdate_current_persists (io : Inputs) (e : Engine) :
  let g := currentGesture e in
  let r := handleGestureUpdate g io e in
  calls r = [Held g] /\ value r = Some tt /\
  currentGesture (final r) = g /\
  gestureCooldown (final r) = gestureCooldown e /\
  sameSession e (final r).
Proof.
  intros g r. subst r.
  change (post (handleGestureUpdate g io) e
            (fun l e' v => l = [Held g] /\ v = Some tt /\ currentGesture e' = g
                           /\ gestureCooldown e' = gestureCooldown e
                           /\ sameSession e e')).
  unfold handleGestureUpdate.
  mstep. mcall ltac:(apply verifyHold_post).
  intros (-> & Hss & Hcur & Hcool & _ & _ & ->).
  fold g in Hcur.
  assert (Hp : match g with
               | PINCH =>
                   Stabilizer.effectiveGesture (currentGesture e) PINCH
                     Stabilizer.PINCH_REQUIRED_HOLD
                     (now io - Stabilizer.holdStart (pinchStartTime e) (now io))
               | FIST =>
                   Stabilizer.effectiveGesture (currentGesture e) FIST
                     Stabilizer.FIST_REQUIRED_HOLD
                     (now io - Stabilizer.holdStart (fistStartTime e) (now io))
               | _ => g
               end = g).
  { fold g. unfold Stabilizer.effectiveGesture.
    destruct g eqn:Eg; try reflexivity.
    - destruct (_ <? _)%Z; reflexivity.
    - destruct (_ <? _)%Z; reflexivity. }
  rewrite Hp. mstep. mstep. rewrite Hcur, Gesture_eqb_refl. cbn [negb andb].
  mrun. rewrite Hcur. split_post.
Qed.

(** Outside the gestures and states on which it acts, [onGestureEnter]
    drops the event: the engine stays exactly as it was.  So does a grab
    whose pointer ray meets no child of the ring. *)
Theorem onGestureEnter_drops (gesture : Gesture) (io : Inputs) (e : Engine) :
  (entersTransition gesture e = false ->
   onGestureEnter gesture io e = mkOutcome [Entered gesture] e (Some tt)) /\
  (forall children,
      cardRing e = Some children ->
      bindOpt (rayHit io) (nth_error children) = None ->
      tryGrab io e = mkOutcome [] e (Some tt)).
Proof.
  split.
  - intros H. unfold entersTransition in H.
    unfold onGestureEnter, bind, emit, get.
    destruct gesture, (state e); cbn [Gesture_eqb GameState_eqb andb orb] in *;
      try discriminate; try reflexivity.
    rewrite H. reflexivity.
  - intros children Hring Hmiss. unfold tryGrab, bind, get.
    rewrite Hring, Hmiss. now destruct (_ <=? _).
Qed.

Lemma onGestureEnter_drops_witness :
  onGestureEnter FIST (Samples.ioAt 1000 None) constructed
  = mkOutcome [Entered FIST] constructed (Some tt)
  /\ tryGrab (Samples.ioAt 1000 (Some 31)) Samples.freshSession
     = mkOutcome [] Samples.freshSession (Some tt).
Proof.
  split.
  - apply (proj1 (onGestureEnter_drops FIST (Samples.ioAt 1000 None) constructed)).
    reflexivity.
  - apply (proj2 (onGestureEnter_drops PINCH (Samples.ioAt 1000 (Some 31))
                    Samples.freshSession) (deck Samples.freshSession)).
    + reflexivity.
    + reflexivity.
Defined.

End QuietUpdates.

(** ** The session as a transition system *)

(** The tests a handler has passed, as equations and inequalities. *)
Ltac tests :=
  repeat match goal with
         | H : (_ && _) = true |- _ => apply andb_true_iff in H; destruct H
         | H : negb _ = false |- _ => apply negb_false_iff in H
         | H : negb _ = true |- _ => apply negb_true_iff in H
         | H : GameState_eqb _ _ = true |- _ => apply GameState_eqb_eq in H
         | H : Gesture_eqb _ _ = true |- _ => apply Gesture_eqb_eq in H
         | H : (_ <=? _) = false |- _ => apply Nat.leb_gt in H
         | H : (_ <=? _) = true |- _ => apply Nat.leb_le in H
         end.

Section Moves.

Import Game Lifecycle.

Lemma Move_Stay_refl (e : Engine) : Move e e.
Proof. apply Stay; repeat split. Qed.

Lemma Inv_ring_READY (e : Engine) (children : list TarotCardData) :
  Inv e -> cardRing e = Some children -> children = deck e.
Proof.
  intros HI H. destruct (inv_ring HI) as [Hr | (Hr & _)]; congruence.
Qed.

Lemma onGestureEnter_move (gesture : Gesture) (io : Inputs) (e : Engine) :
  Inv e ->
  post (onGestureEnter gesture io) e (fun l e' v => Move e e').
Proof.
  intros HI. unfold onGestureEnter, tryGrab, confirmCard, triggerDisintegrate, resetDeck.
  mrun; try apply Move_Stay_refl; tests; simpl in *.
  - (* grab *)
    match goal with
    | Hr : cardRing e = Some ?l, Hn : bindOpt (rayHit io) (nth_error ?l) = Some ?c |- _ =>
        apply (Inv_ring_READY e l HI) in Hr; subst l;
        apply (Grab _ _ c (coin io)); simpl; try reflexivity; try assumption;
        destruct (rayHit io); [| discriminate]; eapply nth_error_In, Hn
    end.
  - (* confirmation *)
    match goal with
    | Ha : activeCardData e = Some ?c |- _ =>
        apply (Confirm _ _ c (stamp io)); simpl; try reflexivity; assumption
    end.
  - (* no active card in PREVIEW: excluded *)
    exfalso.
    match goal with
    | Hs : state e = PREVIEW |- _ =>
        destruct (inv_active HI (or_intror Hs)) as (c & Hc & _); congruence
    end.
  - (* release *)
    apply Release; simpl; try reflexivity; try assumption. repeat split.
  - (* reset *)
    apply (Restart _ _ (shuffle (random io) TAROT_DECK)); simpl; try reflexivity.
    apply shuffle_Permutation.
Qed.

Lemma Move_ext (e a b e' : Engine) :
  (state a = state e /\ deck a = deck e /\ history a = history e
   /\ sessionDrawnCount a = sessionDrawnCount e /\ isReversed a = isReversed e
   /\ activeCardData a = activeCardData e /\ cardRing a = cardRing e
   /\ pendingTimeouts a = pendingTimeouts e) ->
  (state e' = state b /\ deck e' = deck b /\ history e' = history b
   /\ sessionDrawnCount e' = sessionDrawnCount b /\ isReversed e' = isReversed b
   /\ activeCardData e' = activeCardData b /\ cardRing e' = cardRing b
   /\ pendingTimeouts e' = pendingTimeouts b) ->
  Move a b -> Move e e'.
Proof.
  intros (S1 & D1 & H1 & C1 & R1 & A1 & G1 & P1)
         (S2 & D2 & H2 & C2 & R2 & A2 & G2 & P2) M.
  destruct M; unfold sameCards in *;
    rewrite ?S1, ?D1, ?H1, ?C1, ?R1, ?A1, ?G1, ?P1 in *;
    [ apply Stay | apply Carry | eapply Grab | eapply Confirm
    | apply Release | apply Expire | eapply Restart | eapply Reshuffle ];
    unfold sameCards;
    rewrite ?S2, ?D2, ?H2, ?C2, ?R2, ?A2, ?G2, ?P2;
    try eassumption; try reflexivity.
Qed.

Lemma Move_sameSession (e a b e' : Engine) :
  sameSession e a -> sameSession b e' -> Move a b -> Move e e'.
Proof.
  intros (S1 & _ & _ & D1 & H1 & C1 & R1 & A1 & G1 & _ & P1)
         (S2 & _ & _ & D2 & H2 & C2 & R2 & A2 & G2 & _ & P2).
  apply Move_ext; repeat split; assumption.
Qed.

Lemma sameSession_refl (e : Engine) : sameSession e e.
Proof. repeat split. Qed.

Lemma handleGestureUpdate_move (gesture : Gesture) (io : Inputs) (e : Engine) :
  Inv e ->
  post (handleGestureUpdate gesture io) e (fun l e' v => Move e e').
Proof.
  intros HI. unfold handleGestureUpdate.
  mstep. mcall ltac:(apply verifyHold_post).
  intros (_ & Hss & _ & _ & _ & _ & ->).
  assert (HI1 : Inv e') by (eapply Inv_sameSession; eassumption).
  set (processed := match gesture with PINCH => _ | FIST => _ | _ => gesture end).
  mrun.
  - mcall ltac:(apply onGestureEnter_move;
                eapply Inv_sameSession; [| exact HI1];
                unfold sameSession; simpl; repeat split).
    intros M.
    assert (Hss' : sameSession e (set_currentGesture processed e')).
    { destruct Hss as (? & ? & ? & ? & ? & ? & ? & ? & ? & ? & ?).
      unfold sameSession; simpl; repeat split; assumption. }
    destruct v as [[] |]; mrun;
      (eapply Move_sameSession; [exact Hss' | | exact M]);
      unfold sameSession; simpl; repeat split.
  - eapply Move_sameSession; [exact Hss | apply sameSession_refl | apply Move_Stay_refl].
Qed.

(** Every handler moves the session in one of the eight ways. *)
Lemma handler_move (ev : Event) (e : Engine) :
  Inv e -> Move e (step e ev).
Proof.
  intros HI. unfold step.
  change (post (handler ev) e (fun _ e' _ => Move e e')).
  destruct ev as [random | mode | results io | button onCard io
                 | io | nearAnchor | | random];
    cbn [handler].
  - (* Init *)
    unfold init. mrun.
    apply (Reshuffle _ _ (shuffle random (deck e))); simpl; try reflexivity.
    apply shuffle_Permutation.
  - (* SelectMode *)
    mrun. apply Stay; repeat split.
  - (* HandResults *)
    unfold processHandResults. mrun; try apply Move_Stay_refl.
    + mcall ltac:(apply handleGestureUpdate_move, Inv_pushed; exact HI).
      intros M. eapply Move_ext; [| | exact M]; simpl; repeat split.
    + apply Stay; repeat split.
    + mcall ltac:(apply handleGestureUpdate_move; exact HI).
      intros M. exact M.
  - (* MouseDown *)
    unfold onMouseDown. mrun; try apply Move_Stay_refl;
      (mcall ltac:(apply handleGestureUpdate_move; exact HI); intros M; exact M).
  - (* MouseUp *)
    unfold onMouseUp. mrun; try apply Move_Stay_refl.
    mcall ltac:(apply handleGestureUpdate_move; exact HI). intros M. exact M.
  - (* Animate *)
    unfold updateCardTransform. mrun; try apply Move_Stay_refl.
    apply Carry; simpl; try reflexivity; try assumption. repeat split.
  - (* Timeout *)
    mrun; try apply Move_Stay_refl.
    apply Expire; simpl; try reflexivity; try assumption. repeat split.
  - (* ResetDeck *)
    unfold resetDeck. mrun.
    apply (Restart _ _ (shuffle random TAROT_DECK)); simpl; try reflexivity.
    apply shuffle_Permutation.
Qed.

End Moves.

Section SettledFacts.

Import Game Lifecycle.

Lemma Settled_constructed : Settled constructed.
Proof.
  constructor; cbn; try discriminate.
  - apply incl_refl.
  - intros h [].
Qed.

Lemma Settled_move (e e' : Engine) :
  Settled e -> Move e e' -> Settled e'.
Proof.
  intros [] M.
  destruct M as [S C P | S S' C P | c o S S' Q I D R A O H N P
                 | c t S S' A A' O H N D R P | S S' C P | S' C P
                 | sh S' Hp D R H N O A P | sh S' Hp D R H N O A P];
    try (destruct C as (CD & CR & CH & CN & CO & CA));
    constructor;
    rewrite ?S, ?S', ?CD, ?CH, ?CA, ?CO, ?D, ?H, ?A, ?A', ?P;
    try discriminate; try assumption; try lia.
  - (* Grab: the deck shrinks *)
    intros d Hd. apply filter_In in Hd. apply settled_deck0, Hd.
  - (* Grab: the active card is of the deck *)
    intros c' Hc. inversion Hc; subst c'. now apply settled_deck0.
  - (* Confirm: the new entry *)
    intros h [<- | Hh]; [| now apply settled_history0].
    cbn. split; [now apply settled_active0 | reflexivity].
  - intros c' Hc. inversion Hc; subst c'. now apply settled_active0.
  - (* Confirm: the active card heads the history *)
    intros _. exists c, (History.mkHistory (name_zh c) (isReversed e) t c), (history e).
    rewrite O. repeat split.
  - (* Restart: the table, shuffled *)
    intros d Hd. eapply Permutation_in; [exact Hp | exact Hd].
  - intros h [].
  - (* Reshuffle *)
    intros d Hd. apply settled_deck0.
    eapply Permutation_in; [exact Hp | exact Hd].
Qed.

Lemma Settled_run (evs : list Event) (e : Engine) :
  Inv e -> Settled e -> Settled (run e evs).
Proof.
  revert e. induction evs as [| ev evs IH]; intros e HI HS; [exact HS|].
  cbn [run fold_left]. apply IH.
  - apply Inv_step, HI.
  - eapply Settled_move; [exact HS | apply handler_move, HI].
Qed.

Lemma reachable_Settled (e : Engine) : reachable e -> Settled e.
Proof.
  intros [evs ->]. apply Settled_run; [apply Inv_constructed | apply Settled_constructed].
Qed.

End SettledFacts.

(** ** What every run keeps *)

Section RunInvariants.

Import Game Lifecycle Samples MoreSamples.

Lemma run_Inv (evs : list Event) : Inv (run constructed evs).
Proof. apply Inv_run, Inv_constructed. Qed.

Lemma run_Settled (evs : list Event) : Settled (run constructed evs).
Proof. apply Settled_run; [apply Inv_constructed | apply Settled_constructed]. Qed.

(** Every event of every run moves the session in one of eight ways, so
    the state changes only along the edges of the lifecycle, and IDLE is
    never entered again. *)
Theorem every_event_is_a_lifecycle_move (evs : list Event) (ev : Event) :
  let e := run constructed evs in
  let e' := step e ev in
  Move e e' /\
  (state e' = state e \/ lifecycleEdge (state e) (state e') = true) /\
  (state e' = IDLE -> state e = IDLE).
Proof.
  intros e e'. pose proof (handler_move ev e (run_Inv evs)) as M. fold e' in M.
  split; [exact M |].
  destruct M as [S C P | S S' C P | c o S S' Q I D R A O H N P
                 | c t S S' A A' O H N D R P | S S' C P | S' C P
                 | sh S' Hp D R H N O A P | sh S' Hp D R H N O A P];
    rewrite ?S, ?S'; split;
    try (left; reflexivity); try (right; reflexivity);
    try discriminate; try (intros; assumption).
  all: right; destruct (state e); reflexivity.
Qed.

(** The history is a record that grows at its head: an event leaves it as
    it is, or puts the entry of the active card, with the orientation the
    engine holds, before all older entries, or empties it in a reset.  The
    card in hand and its orientation stay as the grab set them until the
    confirmation, and in CONFIRMED the active card is the card of the
    latest entry, with that orientation. *)
Theorem history_grows_at_head (evs : list Event) (ev : Event) :
  let e := run constructed evs in
  let e' := step e ev in
  (history e' = history e
   \/ (exists c time,
          state e = PREVIEW /\ activeCardData e = Some c
          /\ history e' =
             History.mkHistory (name_zh c) (isReversed e) time c :: history e)
   \/ (history e' = [] /\ sessionDrawnCount e' = 0)) /\
  ((state e = GRABBING \/ state e = PREVIEW) ->
   (state e' = GRABBING \/ state e' = PREVIEW) ->
   activeCardData e' = activeCardData e /\ isReversed e' = isReversed e) /\
  (state e = CONFIRMED ->
   exists c h rest,
     activeCardData e = Some c /\ history e = h :: rest
     /\ History.cardData h = c /\ History.isReversed h = isReversed e).
Proof.
  intros e e'. pose proof (handler_move ev e (run_Inv evs)) as M. fold e' in M.
  split; [| split].
  - destruct M as [S C P | S S' C P | c o S S' Q I D R A O H N P
                   | c t S S' A A' O H N D R P | S S' C P | S' C P
                   | sh S' Hp D R H N O A P | sh S' Hp D R H N O A P];
      try (destruct C as (CD & CR & CH & CN & CO & CA));
      try (left; assumption).
    + right; left. exists c, t. repeat split; assumption.
    + right; right. split; assumption.
  - intros Hs Hs'.
    destruct M as [S C P | S S' C P | c o S S' Q I D R A O H N P
                   | c t S S' A A' O H N D R P | S S' C P | S' C P
                   | sh S' Hp D R H N O A P | sh S' Hp D R H N O A P];
      try (destruct C as (CD & CR & CH & CN & CO & CA); split; assumption);
      exfalso; destruct Hs as [Hs | Hs], Hs' as [Hs' | Hs']; congruence.
  - intros Hs.
    destruct (settled_confirmed _ (run_Settled evs) Hs) as (c & h & rest & A & H & C & O & _).
    exists c, h, rest. repeat split; assumption.
Qed.

(** Once three cards are drawn, the third draw's quota holds until a
    reset: an event either resets the deck, emptying the history, or leaves
    drawn count and history as they are, the deck at most rearranged, and
    no card in hand. *)
Theorem exhausted_quota_freezes (evs : list Event) (ev : Event) :
  let e := run constructed evs in
  let r := handler ev e in
  sessionDrawnCount e = 3 ->
  (In DeckReset (calls r) /\ sessionDrawnCount (final r) = 0
   /\ history (final r) = [])
  \/ (~ In DeckReset (calls r) /\ sessionDrawnCount (final r) = 3
      /\ history (final r) = history e
      /\ Permutation (deck (final r)) (deck e)
      /\ state (final r) <> GRABBING /\ state (final r) <> PREVIEW).
Proof.
  intros e r Hq.
  pose proof (run_Inv evs) as HI. fold e in HI.
  pose proof (handler_move ev e HI) as M. unfold step in M. fold r in M.
  destruct (handler_post ev e HI) as (HI' & Hstep & _). fold r in HI', Hstep.
  assert (Hnot : state e <> GRABBING /\ state e <> PREVIEW).
  { split; intros Hs.
    - pose proof (inv_drawing HI (or_introl Hs)). unfold MAX_DRAW_PER_SESSION in *. lia.
    - pose proof (inv_drawing HI (or_intror Hs)). unfold MAX_DRAW_PER_SESSION in *. lia. }
  destruct Hnot as [HnG HnP].
  destruct M as [S C P | S S' C P | c o S S' Q I D R A O H N P
                 | c t S S' A A' O H N D R P | S S' C P | S' C P
                 | sh S' Hp D R H N O A P | sh S' Hp D R H N O A P];
    try (destruct C as (CD & CR & CH & CN & CO & CA));
    try congruence;
    try (unfold MAX_DRAW_PER_SESSION in *; lia).
  - right. destruct Hstep as [[_ Hz] | [Hno _]]; [lia |].
    rewrite S, CD, CH, CN. repeat split; try assumption. reflexivity.
  - right. destruct Hstep as [[_ Hz] | [Hno _]]; [lia |].
    rewrite S', CD, CH, CN. repeat split; try assumption; try discriminate. reflexivity.
  - right. destruct Hstep as [[_ Hz] | [Hno _]]; [lia |].
    rewrite S', CD, CH, CN. repeat split; try assumption; try discriminate. reflexivity.
  - left. destruct Hstep as [[Hin _] | [_ Hle]]; [| lia].
    repeat split; assumption.
  - right. destruct Hstep as [[_ Hz] | [Hno _]]; [lia |].
    rewrite S', D, H, N. repeat split; try assumption; discriminate.
Qed.

Lemma exhausted_quota_freezes_witness :
  let e := run constructed threeDrawsRun in
  let r := handler (HandResults (Some pinchHand) (ioAt 5000 (Some 0))) e in
  (In DeckReset (calls r) /\ sessionDrawnCount (final r) = 0
   /\ history (final r) = [])
  \/ (~ In DeckReset (calls r) /\ sessionDrawnCount (final r) = 3
      /\ history (final r) = history e
      /\ Permutation (deck (final r)) (deck e)
      /\ state (final r) <> GRABBING /\ state (final r) <> PREVIEW).
Proof.
  apply (exhausted_quota_freezes threeDrawsRun
           (HandResults (Some pinchHand) (ioAt 5000 (Some 0)))).
  vm_compute. reflexivity.
Defined.

(** The cards of a session are cards of the table: the deck holds cards
    of [TAROT_DECK] with no identity twice, every history entry carries a
    card of the table under its own name, the active card is one, the
    history has as many entries as cards were drawn, and deck and history
    together never hold more than the 31 cards there are. *)
Theorem cards_come_from_the_table (evs : list Event) :
  let e := run constructed evs in
  incl (deck e) TAROT_DECK /\ NoDup (cardIds (deck e)) /\
  (forall h, In h (history e) ->
     In (History.cardData h) TAROT_DECK
     /\ History.name h = name_zh (History.cardData h)) /\
  (forall c, activeCardData e = Some c -> In c TAROT_DECK) /\
  length (history e) = sessionDrawnCount e /\
  length (deck e) + length (history e) <= 31.
Proof.
  intros e.
  pose proof (run_Inv evs) as HI. pose proof (run_Settled evs) as HS.
  fold e in HI, HS.
  repeat split; try apply (settled_history _ HS); try assumption.
  - apply (settled_deck _ HS).
  - apply (inv_deck_nodup HI).
  - apply (settled_active _ HS).
  - apply (inv_history_length HI).
  - assert (Hnd : NoDup (cardIds (deck e) ++ historyIds (history e))).
    { apply NoDup_app; [apply (inv_deck_nodup HI) | apply (inv_history_nodup HI) |].
      intros i Hd Hh. exact (inv_disjoint HI i Hh Hd). }
    assert (Hincl : incl (cardIds (deck e) ++ historyIds (history e)) (cardIds TAROT_DECK)).
    { intros i Hi. apply in_app_or in Hi. destruct Hi as [Hi | Hi].
      - unfold cardIds in *. apply in_map_iff in Hi. destruct Hi as (c & <- & Hc).
        apply in_map, (settled_deck _ HS), Hc.
      - unfold historyIds in Hi. apply in_map_iff in Hi. destruct Hi as (h & <- & Hh).
        unfold cardIds. apply in_map. now apply (settled_history _ HS). }
    pose proof (NoDup_incl_length Hnd Hincl) as Hlen.
    rewrite length_app in Hlen. unfold cardIds, historyIds in Hlen.
    rewrite !length_map in Hlen. exact Hlen.
Qed.

(** The ring shows exactly the undrawn cards: once built it carries the
    deck, card for card, so a pointer ray can meet neither a card of the
    history nor the card in hand; and it is built in every state but IDLE. *)
Theorem ring_carries_the_deck (evs : list Event) :
  let e := run constructed evs in
  (cardRing e = None -> state e = IDLE) /\
  (forall children,
      cardRing e = Some children ->
      children = deck e /\
      (forall h, In h (history e) ->
                 ~ In (id (History.cardData h)) (cardIds children)) /\
      (state e = GRABBING \/ state e = PREVIEW \/ state e = CONFIRMED ->
       forall c, activeCardData e = Some c -> ~ In (id c) (cardIds children))).
Proof.
  intros e.
  pose proof (run_Inv evs) as HI. pose proof (run_Settled evs) as HS.
  fold e in HI, HS.
  split.
  - intros Hn. destruct (inv_ring HI) as [Hr | (_ & Hs & _)]; [congruence | exact Hs].
  - intros children Hr.
    assert (children = deck e) by (now apply (Inv_ring_READY e)). subst children.
    split; [reflexivity | split].
    + intros h Hh. apply (inv_disjoint HI).
      unfold historyIds. now apply (in_map (fun h => id (History.cardData h))).
    + intros Hs c Hc. destruct Hs as [Hs | [Hs | Hs]].
      * destruct (inv_active HI (or_introl Hs)) as (c' & Hc' & Hd & _). congruence.
      * destruct (inv_active HI (or_intror Hs)) as (c' & Hc' & Hd & _). congruence.
      * destruct (settled_confirmed _ HS Hs) as (c' & h & rest & Hc' & Hh & Hcd & _).
        apply (inv_disjoint HI). rewrite Hh. cbn. left. congruence.
Qed.

(** A disintegration never hangs: whenever the engine is DISINTEGRATING a
    timeout is pending, and when it runs the engine is READY with its cards
    as they were. *)
Theorem disintegration_ends (evs : list Event) :
  let e := run constructed evs in
  state e = DISINTEGRATING ->
  0 < pendingTimeouts e /\
  state (step e Timeout) = READY /\
  sameCards e (step e Timeout) /\
  pendingTimeouts e = S (pendingTimeouts (step e Timeout)).
Proof.
  intros e Hs.
  pose proof (settled_timeout _ (run_Settled evs) Hs) as Hp. fold e in Hp.
  split; [exact Hp |].
  destruct (pendingTimeouts e) as [| n] eqn:En; [lia |].
  rewrite (timeout_pending e n En). cbn. repeat split.
Qed.

Lemma disintegration_ends_witness :
  let e := run constructed untilDisintegrating in
  0 < pendingTimeouts e /\
  state (step e Timeout) = READY /\
  sameCards e (step e Timeout) /\
  pendingTimeouts e = S (pendingTimeouts (step e Timeout)).
Proof.
  apply (disintegration_ends untilDisintegrating).
  vm_compute. reflexivity.
Defined.

End RunInvariants.

(** ** What a handler can raise *)

Section Raising.

Import Game Lifecycle Samples MoreSamples.

Lemma getStableGesture_None (buffer : list Gesture) :
  Stabilizer.getStableGesture buffer = None -> buffer = [].
Proof.
  unfold Stabilizer.getStableGesture. rewrite keys_countGestures.
  destruct buffer as [| g buffer]; [reflexivity |].
  rewrite firstOccurrences_nonempty. discriminate.
Qed.

Lemma pushGesture_nonempty (buffer : list Gesture) (raw : Gesture) :
  Stabilizer.pushGesture buffer raw <> [].
Proof.
  unfold Stabilizer.pushGesture.
  destruct (Nat.ltb_spec Stabilizer.BUFFER_SIZE (length (buffer ++ [raw]))) as [H | H].
  - intros E. apply (f_equal (@length Gesture)) in E.
    destruct (buffer ++ [raw]) as [| a l]; cbn in *;
      unfold Stabilizer.BUFFER_SIZE in H; lia.
  - destruct buffer; discriminate.
Qed.

Lemma handler_raises (ev : Event) (e : Engine) :
  Inv e ->
  post (handler ev) e
    (fun l e' v =>
       v = None ->
       e' = e /\ l = [] /\
       exists frame io,
         ev = HandResults (Some frame) io /\ inputMode e = HANDS
         /\ Classifier.detectGestureRaw frame = None).
Proof.
  intros HI.
  destruct ev as [random | mode | results io | button onCard io
                 | io | nearAnchor | | random];
    cbn [handler].
  - unfold init. mrun. discriminate.
  - mrun. discriminate.
  - unfold processHandResults. mrun; try discriminate.
    + mcall ltac:(apply handleGestureUpdate_post, Inv_pushed; exact HI).
      intros (_ & -> & _). discriminate.
    + exfalso. simpl in *.
      match goal with
      | H : Stabilizer.getStableGesture _ = None |- _ =>
          apply getStableGesture_None in H; now apply pushGesture_nonempty in H
      end.
    + intros _. tests. split; [reflexivity | split; [reflexivity |]].
      exists l, io. repeat split; try assumption.
      destruct (inputMode e); [reflexivity | discriminate].
    + mcall ltac:(apply handleGestureUpdate_post; exact HI).
      intros (_ & -> & _). discriminate.
  - unfold onMouseDown. mrun; try discriminate;
      try (mcall ltac:(apply handleGestureUpdate_post; exact HI);
           intros (_ & -> & _); discriminate).
    exfalso. tests.
    match goal with
    | H : _ || _ = true |- _ => apply orb_true_iff in H; destruct H as [H | H]; tests
    end.
    + rewrite (inv_mesh HI) in *; [discriminate | now right].
    + rewrite (inv_mesh HI) in *; [discriminate | now left].
  - unfold onMouseUp. mrun; try discriminate.
    mcall ltac:(apply handleGestureUpdate_post; exact HI).
    intros (_ & -> & _). discriminate.
  - unfold updateCardTransform. mrun; discriminate.
  - mrun; discriminate.
  - unfold resetDeck. mrun. discriminate.
Qed.

(** In a run, a handler raises only in one case: hand results, in HANDS
    mode, whose frame lacks one of its 21 points; and then it has written
    nothing and made no call.  The ring, the active card and the card mesh
    are there whenever a handler reads them. *)
Theorem handlers_raise_only_on_short_frames (evs : list Event) (ev : Event) :
  let e := run constructed evs in
  value (handler ev e) = None ->
  step e ev = e /\ calls (handler ev e) = [] /\
  exists frame io,
    ev = HandResults (Some frame) io /\ inputMode e = HANDS
    /\ length frame < 21.
Proof.
  intros e Hv.
  destruct (handler_raises ev e (Inv_run evs constructed Inv_constructed) Hv)
    as (He & Hl & frame & io & Hev & Hm & Hd).
  split; [exact He | split; [exact Hl |]].
  exists frame, io. repeat split; try assumption.
  now apply detectGestureRaw_raises_iff_short_aux.
Qed.

Lemma handlers_raise_only_on_short_frames_witness :
  let e := run constructed [Init (fun i => 7 * i + 3)] in
  let ev := HandResults (Some (firstn 20 openHand)) (ioAt 1000 None) in
  step e ev = e /\ calls (handler ev e) = [] /\
  exists frame io,
    ev = HandResults (Some frame) io /\ inputMode e = HANDS
    /\ length frame < 21.
Proof.
  apply (handlers_raise_only_on_short_frames [Init (fun i => 7 * i + 3)]
           (HandResults (Some (firstn 20 openHand)) (ioAt 1000 None))).
  vm_compute. reflexivity.
Defined.

End Raising.

(** ** The stabilizer's own fields *)

Section StabilizerFields.

Import Game Lifecycle Samples MoreSamples.

Lemma onGestureEnter_keeps_input (gesture : Gesture) (io : Inputs) (e : Engine) :
  post (onGestureEnter gesture io) e
    (fun l e' v =>
       inputMode e' = inputMode e /\ gestureBuffer e' = gestureBuffer e
       /\ sameStabilizer e e').
Proof.
  unfold onGestureEnter, tryGrab, confirmCard, triggerDisintegrate, resetDeck.
  mrun; simpl; repeat split.
Qed.

(** What an update does to the stabilizer's fields, whatever the engine. *)
Lemma handleGestureUpdate_stabilizer (gesture : Gesture) (io : Inputs) (e : Engine) :
  post (handleGestureUpdate gesture io) e
    (fun l e' v =>
       inputMode e' = inputMode e /\ gestureBuffer e' = gestureBuffer e
       /\ (pinchStartTime e', fistStartTime e') = timersAfter gesture (now io) e
       /\ (currentGesture e' = currentGesture e
           \/ currentGesture e' = processedGesture gesture (now io) e)).
Proof.
  unfold handleGestureUpdate.
  mstep. mcall ltac:(apply verifyHold_post).
  intros (_ & Hss & Hcur & _ & Hp & Hf & ->).
  fold (processedGesture gesture (now io) e).
  destruct Hss as (_ & Hm & Hb & _).
  assert (Ht : (pinchStartTime e', fistStartTime e') = timersAfter gesture (now io) e)
    by (unfold timersAfter; now rewrite Hp, Hf).
  mrun.
  - mcall ltac:(apply onGestureEnter_keeps_input).
    intros (Hm' & Hb' & Hc' & _ & Hp' & Hf'). simpl in *.
    destruct v as [[] |]; mrun; simpl;
      rewrite ?Hm', ?Hb', ?Hp', ?Hf', ?Hc'; repeat split; try assumption;
      now right.
  - repeat split; try assumption. now left.
Qed.

(** An update whose processed gesture is the current one. *)
Lemma handleGestureUpdate_idle (gesture : Gesture) (io : Inputs) (e : Engine) :
  processedGesture gesture (now io) e = currentGesture e ->
  post (handleGestureUpdate gesture io) e
    (fun l e' v =>
       l = [Held (currentGesture e)] /\ v = Some tt /\ sameSession e e'
       /\ currentGesture e' = currentGesture e
       /\ gestureCooldown e' = gestureCooldown e
       /\ (pinchStartTime e', fistStartTime e') = timersAfter gesture (now io) e).
Proof.
  intros Hproc. unfold handleGestureUpdate.
  mstep. mcall ltac:(apply verifyHold_post).
  intros (-> & Hss & Hcur & Hcool & Hp & Hf & ->).
  fold (processedGesture gesture (now io) e). rewrite Hproc.
  mstep. mstep. rewrite Hcur, Gesture_eqb_refl. cbn [negb andb].
  mrun. rewrite Hcur. split_post.
  unfold timersAfter. now rewrite Hp, Hf.
Qed.

Lemma handler_timers (ev : Event) (e : Engine) :
  post (handler ev) e
    (fun l e' v =>
       (pinchStartTime e' = pinchStartTime e /\ fistStartTime e' = fistStartTime e)
       \/ (pinchStartTime e' = 0%Z \/ fistStartTime e' = 0%Z)).
Proof.
  assert (Hupd : forall g io e0,
             (pinchStartTime e0 = pinchStartTime e /\ fistStartTime e0 = fistStartTime e) ->
             post (handleGestureUpdate g io) e0
               (fun l e' v =>
                  (pinchStartTime e' = pinchStartTime e
                   /\ fistStartTime e' = fistStartTime e)
                  \/ (pinchStartTime e' = 0%Z \/ fistStartTime e' = 0%Z))).
  { intros g io e0 _. mcall ltac:(apply handleGestureUpdate_stabilizer).
    intros (_ & _ & Ht & _). right. unfold timersAfter in Ht.
    inversion Ht as [[Hp Hf]]. destruct g; cbn; auto. }
  destruct ev as [random | mode | results io | button onCard io
                 | io | nearAnchor | | random];
    cbn [handler];
    unfold init, processHandResults, onMouseDown, onMouseUp,
      updateCardTransform, resetDeck;
    mrun; try (left; split; reflexivity);
    apply Hupd; split; reflexivity.
Qed.

(** The two hold timers follow the gesture of the latest update: an update
    leaves the timer of its own gesture running (started at its time if it
    was at rest) and sets the other to 0.  So in every engine a run can
    reach at most one of the two timers is running. *)
Theorem hold_timers_follow_the_gesture :
  (forall (gesture : Gesture) (io : Inputs) (e : Engine),
      let e' := final (handleGestureUpdate gesture io e) in
      pinchStartTime e' =
        (if Gesture_eqb gesture PINCH
         then Stabilizer.holdStart (pinchStartTime e) (now io) else 0%Z)
      /\ fistStartTime e' =
        (if Gesture_eqb gesture FIST
         then Stabilizer.holdStart (fistStartTime e) (now io) else 0%Z)) /\
  (forall evs : list Event,
      let e := run constructed evs in
      pinchStartTime e = 0%Z \/ fistStartTime e = 0%Z).
Proof.
  split.
  - intros gesture io e e'.
    destruct (handleGestureUpdate_stabilizer gesture io e) as (_ & _ & Ht & _).
    fold e' in Ht. unfold timersAfter in Ht. now inversion Ht.
  - intros evs. induction evs as [| ev evs IH] using rev_ind.
    + now left.
    + unfold run in *. rewrite fold_left_app. cbn [fold_left].
      cbv zeta in IH.
      destruct (handler_timers ev (fold_left step evs constructed)) as [[Hp Hf] | H].
      * unfold step at 1 3. rewrite Hp, Hf. exact IH.
      * exact H.
Qed.

Lemma handler_buffer (ev : Event) (e : Engine) :
  post (handler ev) e
    (fun l e' v =>
       inputMode e' = match ev with SelectMode mode => mode | _ => inputMode e end
       /\ gestureBuffer e' =
          match ev with
          | HandResults (Some frame) _ =>
              match inputMode e, Classifier.detectGestureRaw frame with
              | HANDS, Some raw => Stabilizer.pushGesture (gestureBuffer e) raw
              | _, _ => gestureBuffer e
              end
          | _ => gestureBuffer e
          end).
Proof.
  assert (Hupd : forall g io e0 (P : Engine -> Prop),
             P e0 ->
             (forall e', inputMode e' = inputMode e0 ->
                         gestureBuffer e' = gestureBuffer e0 -> P e') ->
             post (handleGestureUpdate g io) e0 (fun l e' v => P e')).
  { intros g io e0 P H0 HP. mcall ltac:(apply handleGestureUpdate_stabilizer).
    intros (Hm & Hb & _). now apply HP. }
  destruct ev as [random | mode | results io | button onCard io
                 | io | nearAnchor | | random];
    cbn [handler];
    unfold init, processHandResults, onMouseDown, onMouseUp,
      updateCardTransform, resetDeck;
    mrun; tests; simpl;
    try (destruct (inputMode e) eqn:Em; try discriminate; simpl);
    try (split; reflexivity);
    try (apply (Hupd _ _ _ (fun e' => inputMode e' = _ /\ gestureBuffer e' = _));
         [ simpl; split; [exact Em || reflexivity | reflexivity]
         | intros e1 Hm1 Hb1; simpl in *; rewrite Hm1, Hb1; split;
           [exact Em || reflexivity | reflexivity] ]).
  all: try (destruct results; split; reflexivity).
Qed.

(** Only a frame that shows a hand, in hand mode, touches the gesture
    buffer, and it pushes that frame's raw gesture: frames without a hand,
    mouse events, a mode choice, timeouts and a reset of the deck all leave
    the buffer as it is. *)
Theorem gesture_buffer_follows_hand_frames (ev : Event) (e : Engine) :
  gestureBuffer (step e ev) =
    match ev with
    | HandResults (Some frame) _ =>
        match inputMode e, Classifier.detectGestureRaw frame with
        | HANDS, Some raw => Stabilizer.pushGesture (gestureBuffer e) raw
        | _, _ => gestureBuffer e
        end
    | _ => gestureBuffer e
    end.
Proof.
  exact (proj2 (handler_buffer ev e)).
Qed.

Lemma Engine_ext (e e' : Engine) :
  sameSession e e' -> sameStabilizer e e' -> e' = e.
Proof.
  destruct e, e'. unfold sameSession, sameStabilizer.
  cbn [state inputMode currentGesture gestureBuffer gestureCooldown
       pinchStartTime fistStartTime deck history sessionDrawnCount isReversed
       activeCardData cardRing currentCardMesh pendingTimeouts].
  intros (H1 & H2 & H3 & H4 & H5 & H6 & H7 & H8 & H9 & H10 & H11)
    (H12 & H13 & H14 & H15).
  subst. reflexivity.
Qed.

Lemma sameSession_trans (e1 e2 e3 : Engine) :
  sameSession e1 e2 -> sameSession e2 e3 -> sameSession e1 e3.
Proof.
  intros (S1 & S2 & S3 & S4 & S5 & S6 & S7 & S8 & S9 & S10 & S11)
         (T1 & T2 & T3 & T4 & T5 & T6 & T7 & T8 & T9 & T10 & T11).
  unfold sameSession.
  rewrite T1, T2, T3, T4, T5, T6, T7, T8, T9, T10, T11.
  repeat split; assumption.
Qed.

Lemma onMouseDown_idle (button : nat) (onCard : bool) (down : Inputs) (e : Engine) :
  currentGesture e = NONE ->
  pinchStartTime e = 0%Z -> fistStartTime e = 0%Z ->
  post (onMouseDown button onCard down) e
    (fun l e' v =>
       Forall (fun c => c = Held NONE) l /\ sameSession e e'
       /\ currentGesture e' = NONE /\ gestureCooldown e' = gestureCooldown e).
Proof.
  intros Hc Hp Hf.
  assert (Hdown : forall g, g = PINCH \/ g = FIST ->
            post (handleGestureUpdate g down) e
              (fun l e' v =>
                 Forall (fun c => c = Held NONE) l /\ sameSession e e'
                 /\ currentGesture e' = NONE
                 /\ gestureCooldown e' = gestureCooldown e)).
  { intros g Hg. mcall ltac:(apply handleGestureUpdate_idle).
    - unfold processedGesture, Stabilizer.effectiveGesture, Stabilizer.holdStart.
      destruct Hg as [-> | ->]; rewrite ?Hp, ?Hf, Hc; cbn [Z.eqb];
        rewrite Z.sub_diag; reflexivity.
    - intros (Hl & _ & Hss' & Hc' & Hcool' & _).
      rewrite Hl, Hc.
      split; [repeat constructor | split; [exact Hss' | split; [congruence | assumption]]]. }
  unfold onMouseDown. mrun;
    try (apply Hdown; auto);
    (split; [constructor | split; [apply sameSession_refl | split; [assumption | reflexivity]]]).
Qed.

Lemma onMouseUp_idle (up : Inputs) (e : Engine) :
  inputMode e = MOUSE -> currentGesture e = NONE ->
  post (onMouseUp up) e
    (fun l e' v =>
       l = [Held NONE] /\ sameSession e e' /\ currentGesture e' = NONE
       /\ gestureCooldown e' = gestureCooldown e
       /\ pinchStartTime e' = 0%Z /\ fistStartTime e' = 0%Z).
Proof.
  intros Hm Hc. unfold onMouseUp. mstep. mstep. rewrite Hm. cbn [InputMode_eqb].
  mcall ltac:(apply handleGestureUpdate_idle).
  - unfold processedGesture. now rewrite Hc.
  - intros (Hl & _ & Hss' & Hc' & Hcool' & Ht).
    unfold timersAfter in Ht. cbn [Gesture_eqb] in Ht. injection Ht as Hp' Hf'.
    rewrite Hl, Hc.
    split; [reflexivity | split; [exact Hss' | split; [congruence |]]].
    split; [assumption | split; assumption].
Qed.

(** A click is a [mousedown] followed by a [mouseup]. *)
Lemma click_idle (button : nat) (onCard : bool) (down up : Inputs) (e : Engine) :
  inputMode e = MOUSE -> currentGesture e = NONE ->
  pinchStartTime e = 0%Z -> fistStartTime e = 0%Z ->
  run e (click button onCard down up) = e
  /\ Forall (fun c => c = Held NONE) (runCalls e (click button onCard down up)).
Proof.
  intros Hm Hc Hp Hf.
  unfold click, run. cbn [fold_left runCalls]. rewrite app_nil_r.
  unfold step. cbn [handler].
  destruct (onMouseDown_idle button onCard down e Hc Hp Hf)
    as (Hl1 & Hss1 & Hc1 & Hcool1).
  set (e1 := final (onMouseDown button onCard down e)) in *.
  assert (Hm1 : inputMode e1 = MOUSE)
    by (destruct Hss1 as (_ & -> & _); exact Hm).
  destruct (onMouseUp_idle up e1 Hm1 Hc1)
    as (Hl2 & Hss2 & Hc2 & Hcool2 & Hp2 & Hf2).
  split.
  - apply Engine_ext.
    + eapply sameSession_trans; eassumption.
    + unfold sameStabilizer. rewrite Hc2, Hcool2, Hp2, Hf2, Hcool1, Hc, Hp, Hf.
      repeat split.
  - apply Forall_app. split; [exact Hl1 |]. rewrite Hl2. repeat constructor.
Qed.

(** In mouse mode a click enters nothing: from an engine at rest (current
    gesture NONE, both hold timers at 0), any series of clicks, with any
    button, anywhere and however long each is held, leaves the engine
    exactly as it was, and the only calls are holds of NONE.  A single
    [mousedown] starts the hold timer and the [mouseup] clears it before a
    second update could find the hold elapsed. *)
Theorem mouse_clicks_enter_nothing
    (clicks : list (nat * bool * Inputs * Inputs)) (e : Engine) :
  inputMode e = MOUSE -> currentGesture e = NONE ->
  pinchStartTime e = 0%Z -> fistStartTime e = 0%Z ->
  let evs :=
    flat_map (fun c => click (fst (fst (fst c))) (snd (fst (fst c)))
                         (snd (fst c)) (snd c)) clicks in
  run e evs = e /\ Forall (fun c => c = Held NONE) (runCalls e evs).
Proof.
  intros Hm Hc Hp Hf. cbv zeta.
  induction clicks as [| [[[button onCard] down] up] clicks [IHrun IHcalls]].
  - split; [reflexivity | constructor].
  - cbn [flat_map fst snd].
    destruct (click_idle button onCard down up e Hm Hc Hp Hf) as [Hrun Hcalls].
    assert (Hcat : forall a b e0, runCalls e0 (a ++ b) = runCalls e0 a ++ runCalls (run e0 a) b).
    { induction a as [| ev a IHa]; intros b e0; cbn [runCalls app].
      - reflexivity.
      - rewrite IHa, <- app_assoc. reflexivity. }
    split.
    + unfold run in *. rewrite fold_left_app, Hrun. exact IHrun.
    + rewrite Hcat, Hrun. apply Forall_app. split; assumption.
Qed.

Lemma mouse_clicks_enter_nothing_witness :
  let evs :=
    flat_map (fun c => click (fst (fst (fst c))) (snd (fst (fst c)))
                         (snd (fst c)) (snd c)) sampleClicks in
  run mouseSession evs = mouseSession
  /\ Forall (fun c => c = Held NONE) (runCalls mouseSession evs).
Proof.
  apply (mouse_clicks_enter_nothing sampleClicks mouseSession); reflexivity.
Defined.

End StabilizerFields.

(** ** The hold of PINCH and FIST *)

Section HoldClaim.

Import Game Lifecycle Samples.

Lemma onGestureEnter_calls (gesture : Gesture) (io : Inputs) (e : Engine) :
  post (onGestureEnter gesture io) e
    (fun l e' v =>
       (exists rest, l = Entered gesture :: rest)
       /\ currentGesture e' = currentGesture e).
Proof.
  unfold onGestureEnter, tryGrab, confirmCard, triggerDisintegrate, resetDeck.
  mrun; simpl; (split; [eexists; reflexivity | reflexivity]).
Qed.

(** What an update reports: it enters its effective gesture when that is
    not the current one and the cooldown is over, and holds the current
    gesture otherwise. *)
Lemma handleGestureUpdate_reports (gesture : Gesture) (io : Inputs) (e : Engine) :
  let effective := processedGesture gesture (now io) e in
  post (handleGestureUpdate gesture io) e
    (fun l e' v =>
       if negb (Gesture_eqb (currentGesture e) effective)
          && (gestureCooldown e <? now io)%Z
       then (exists rest, l = Entered effective :: rest)
            /\ currentGesture e' = effective
       else l = [Held (currentGesture e)]
            /\ currentGesture e' = currentGesture e).
Proof.
  intros effective. unfold handleGestureUpdate.
  mstep. mcall ltac:(apply verifyHold_post).
  intros (-> & Hss & Hcur & Hcool & Hp & Hf & ->).
  fold (processedGesture gesture (now io) e). fold effective.
  mstep. mstep. rewrite Hcur, Hcool.
  destruct (negb (Gesture_eqb (currentGesture e) effective)
            && (gestureCooldown e <? now io)%Z) eqn:Haccept.
  - mstep. mstep. mstep. mstep. mstep.
    mcall ltac:(apply onGestureEnter_calls).
    intros ([rest ->] & Hc). simpl in Hc.
    destruct v as [[] |]; mrun; simpl; rewrite ?Hc;
      (split; [eexists; reflexivity | reflexivity]).
  - mrun. rewrite Hcur. split; reflexivity.
Qed.

(** C3. An update carrying PINCH starts the pinch timer if it is at rest;
    while less than 80 ms have passed on the timer its effective gesture is
    the current gesture if that is PINCH and NONE otherwise, and from 80 ms
    on it is PINCH; likewise FIST with its own timer and 40 ms; any other
    gesture is its own effective gesture.  The update calls [onGestureEnter]
    with the effective gesture, making it the current one, when it is not
    the current gesture and the cooldown is over; otherwise it only holds
    the current gesture.  So a PINCH whose timer shows 80 ms is entered
    from any other current gesture once the cooldown is over, and a stream
    of PINCH updates that starts with the timer at rest and the current
    gesture NONE, and whose times all lie within less than 80 ms of its
    start, makes no call of [onGestureEnter] with PINCH and leaves the
    current gesture NONE; likewise FIST with 40 ms.  In hand mode the
    gesture of the update is the majority of the buffer after the frame's
    raw gesture is pushed, not the raw gesture itself. *)
Theorem hold_verification :
  (forall (gesture : Gesture) (io : Inputs) (e : Engine),
      let effective :=
        match gesture with
        | PINCH =>
            Stabilizer.effectiveGesture (currentGesture e) PINCH 80
              (now io - Stabilizer.holdStart (pinchStartTime e) (now io))
        | FIST =>
            Stabilizer.effectiveGesture (currentGesture e) FIST 40
              (now io - Stabilizer.holdStart (fistStartTime e) (now io))
        | _ => gesture
        end in
      let r := handleGestureUpdate gesture io e in
      if negb (Gesture_eqb (currentGesture e) effective)
         && (gestureCooldown e <? now io)%Z
      then (exists rest, calls r = Entered effective :: rest)
           /\ currentGesture (final r) = effective
      else calls r = [Held (currentGesture e)]
           /\ currentGesture (final r) = currentGesture e) /\
  (forall (io : Inputs) (e : Engine),
      pinchStartTime e <> 0%Z -> (pinchStartTime e + 80 <= now io)%Z ->
      currentGesture e <> PINCH -> (gestureCooldown e < now io)%Z ->
      exists rest, calls (handleGestureUpdate PINCH io e) = Entered PINCH :: rest) /\
  (forall (io : Inputs) (e : Engine),
      fistStartTime e <> 0%Z -> (fistStartTime e + 40 <= now io)%Z ->
      currentGesture e <> FIST -> (gestureCooldown e < now io)%Z ->
      exists rest, calls (handleGestureUpdate FIST io e) = Entered FIST :: rest) /\
  (forall (e : Engine) (ios : list Inputs) (t0 : Z),
      currentGesture e = NONE -> pinchStartTime e = 0%Z ->
      (forall io, In io ios -> (t0 <= now io < t0 + 80)%Z) ->
      ~ In (Entered PINCH) (fst (updateStream PINCH ios e))
      /\ currentGesture (snd (updateStream PINCH ios e)) = NONE) /\
  (forall (e : Engine) (ios : list Inputs) (t0 : Z),
      currentGesture e = NONE -> fistStartTime e = 0%Z ->
      (forall io, In io ios -> (t0 <= now io < t0 + 40)%Z) ->
      ~ In (Entered FIST) (fst (updateStream FIST ios e))
      /\ currentGesture (snd (updateStream FIST ios e)) = NONE) /\
  (forall (frame : list Classifier.Landmark) (raw : Gesture) (io : Inputs)
          (e : Engine),
      inputMode e = HANDS -> Classifier.detectGestureRaw frame = Some raw ->
      let pushed :=
        set_gestureBuffer (Stabilizer.pushGesture (gestureBuffer e) raw) e in
      exists stable,
        Stabilizer.getStableGesture (gestureBuffer pushed) = Some stable
        /\ calls (processHandResults (Some frame) io e)
           = calls (handleGestureUpdate stable io pushed)
        /\ final (processHandResults (Some frame) io e)
           = final (handleGestureUpdate stable io pushed)).
Proof.
  assert (Hrep : forall gesture io e,
             let effective := processedGesture gesture (now io) e in
             let r := handleGestureUpdate gesture io e in
             if negb (Gesture_eqb (currentGesture e) effective)
                && (gestureCooldown e <? now io)%Z
             then (exists rest, calls r = Entered effective :: rest)
                  /\ currentGesture (final r) = effective
             else calls r = [Held (currentGesture e)]
                  /\ currentGesture (final r) = currentGesture e).
  { intros gesture io e. exact (handleGestureUpdate_reports gesture io e). }
  split; [| split; [| split; [| split; [| split]]]].
  - intros gesture io e. exact (Hrep gesture io e).
  - intros io e Hstart Hheld Hcur Hcool.
    pose proof (Hrep PINCH io e) as H. cbv zeta in H.
    assert (Heff : processedGesture PINCH (now io) e = PINCH).
    { unfold processedGesture, Stabilizer.effectiveGesture, Stabilizer.holdStart,
        Stabilizer.PINCH_REQUIRED_HOLD.
      destruct (Z.eqb_spec (pinchStartTime e) 0); [contradiction |].
      destruct (Z.ltb_spec (now io - pinchStartTime e) 80); [lia | reflexivity]. }
    rewrite Heff in H.
    assert (Hne : Gesture_eqb (currentGesture e) PINCH = false)
      by (destruct (currentGesture e); try reflexivity; contradiction).
    rewrite Hne in H. apply Z.ltb_lt in Hcool. rewrite Hcool in H.
    exact (proj1 H).
  - intros io e Hstart Hheld Hcur Hcool.
    pose proof (Hrep FIST io e) as H. cbv zeta in H.
    assert (Heff : processedGesture FIST (now io) e = FIST).
    { unfold processedGesture, Stabilizer.effectiveGesture, Stabilizer.holdStart,
        Stabilizer.FIST_REQUIRED_HOLD.
      destruct (Z.eqb_spec (fistStartTime e) 0); [contradiction |].
      destruct (Z.ltb_spec (now io - fistStartTime e) 40); [lia | reflexivity]. }
    rewrite Heff in H.
    assert (Hne : Gesture_eqb (currentGesture e) FIST = false)
      by (destruct (currentGesture e); try reflexivity; contradiction).
    rewrite Hne in H. apply Z.ltb_lt in Hcool. rewrite Hcool in H.
    exact (proj1 H).
  - intros e ios t0 Hcur Hps Hall.
    destruct (pinch_stream_held_back ios t0 e Hcur (or_introl Hps) Hall) as [Hl Hc].
    split; [| exact Hc]. intros Hin. apply Hl in Hin. discriminate.
  - intros e ios t0 Hcur Hps Hall.
    destruct (fist_stream_held_back ios t0 e Hcur (or_introl Hps) Hall) as [Hl Hc].
    split; [| exact Hc]. intros Hin. apply Hl in Hin. discriminate.
  - intros frame raw io e Hmode Hraw pushed.
    destruct (Stabilizer.getStableGesture (gestureBuffer pushed)) as [stable |] eqn:Hst.
    + exists stable. split; [reflexivity |].
      unfold processHandResults, bind, get, lift, modify, ret.
      cbn [calls final value]. rewrite Hmode. cbn [InputMode_eqb negb].
      rewrite Hraw. cbn [calls final value app].
      fold pushed. rewrite Hst. cbn [calls final value app].
      destruct (handleGestureUpdate stable io pushed) as [l e' [[] |]];
        split; reflexivity.
    + apply getStableGesture_None in Hst. exfalso.
      exact (pushGesture_nonempty _ _ Hst).
Qed.

Lemma hold_verification_witness :
  (~ In (Entered PINCH) (fst (updateStream PINCH shortPinch freshSession))
   /\ currentGesture (snd (updateStream PINCH shortPinch freshSession)) = NONE)
  /\
  (~ In (Entered FIST) (fst (updateStream FIST shortFist freshSession))
   /\ currentGesture (snd (updateStream FIST shortFist freshSession)) = NONE).
Proof.
  split.
  - apply (proj1 (proj2 (proj2 (proj2 hold_verification)))
             freshSession shortPinch 1000%Z).
    + reflexivity.
    + reflexivity.
    + intros io [<- | [<- | [<- | []]]]; cbn; lia.
  - apply (proj1 (proj2 (proj2 (proj2 (proj2 hold_verification))))
             freshSession shortFist 1000%Z).
    + reflexivity.
    + reflexivity.
    + intros io [<- | [<- | [<- | []]]]; cbn; lia.
Defined.

(** A hand that pinches for 79 ms, or for 2 ms, and then opens: the open
    frame still finds PINCH in the majority and the timer at its 80 ms, and
    PINCH is entered. *)
Lemma raw_pinch_below_hold_enters :
  Classifier.detectGestureRaw pinchHand = Some PINCH
  /\ Classifier.detectGestureRaw openHand = Some OPEN
  /\ currentGesture freshSession = NONE
  /\ runCalls freshSession (briefPinch [1000; 1040; 1079]%Z 1110)
     = [Held NONE; Held NONE; Held NONE; Entered PINCH; Held PINCH]
  /\ state (run freshSession (briefPinch [1000; 1040; 1079]%Z 1110)) = GRABBING
  /\ runCalls freshSession (briefPinch [1000; 1001; 1002]%Z 1080)
     = [Held NONE; Held NONE; Held NONE; Entered PINCH; Held PINCH]
  /\ state (run freshSession (briefPinch [1000; 1001; 1002]%Z 1080)) = GRABBING.
Proof. repeat split; vm_compute; reflexivity. Qed.

End HoldClaim.
